(** * GitHub organization manager: bulk operations, environment manager
      and global inventory

    A shallow embedding of the three React components that talk to the
    GitHub REST API (bulk-operations, environment-manager,
    global-secrets-list) and the properties of their request loops. *)

From Stdlib Require Import String Ascii DecimalString.
From Stdlib Require Import List NArith ZArith QArith Lia Bool Permutation.
Import ListNotations.

Local Open Scope nat_scope.
Local Open Scope list_scope.

(* ================================================================== *)
(** * JavaScript strings and the platform functions the code calls      *)
(* ================================================================== *)

Module JS.

(** A JavaScript string is a sequence of UTF-16 code units. *)
Definition codeunit := N.
Definition jsstring := list codeunit.

Definition jsstring_eq_dec : forall a b : jsstring, {a = b} + {a <> b} :=
  list_eq_dec N.eq_dec.

Definition eqb (a b : jsstring) : bool :=
  if jsstring_eq_dec a b then true else false.

(** A string literal of the source (ASCII only). *)
Definition lit (s : string) : jsstring :=
  map N_of_ascii (list_ascii_of_string s).

(** [!s] for a string: only the empty string is falsy. *)
Definition falsy (s : jsstring) : bool :=
  match s with [] => true | _ :: _ => false end.

(** ECMAScript WhiteSpace and LineTerminator code units, the ones
    [String.prototype.trim] strips. *)
Definition isWhiteSpace (c : codeunit) : bool :=
  ((9 <=? c) && (c <=? 13) || (c =? 32) || (c =? 160) || (c =? 5760)
   || (8192 <=? c) && (c <=? 8202) || (c =? 8232) || (c =? 8233)
   || (c =? 8239) || (c =? 8287) || (c =? 12288) || (c =? 65279))%N.

Fixpoint trimStart (s : jsstring) : jsstring :=
  match s with
  | [] => []
  | c :: r => if isWhiteSpace c then trimStart r else s
  end.

Definition trimEnd (s : jsstring) : jsstring := rev (trimStart (rev s)).

Definition trim (s : jsstring) : jsstring := trimEnd (trimStart s).

(** Empty or made of white space only. *)
Definition blank (s : jsstring) : bool := forallb isWhiteSpace s.

(** ** [btoa] and [atob]

    Both are functions of the browser, not of the repository; they are
    written here after their definition in the HTML standard
    (forgiving-base64 encode and decode over RFC 4648's alphabet). *)

Definition alphabet : jsstring :=
  lit "ABCDEFGHIJKLMNOPQRSTUVWXYZabcdefghijklmnopqrstuvwxyz0123456789+/".

Definition padChar : codeunit := 61%N.

Definition encodeSextet (n : N) : codeunit := nth (N.to_nat n) alphabet 0%N.

Definition decodeChar (c : codeunit) : option N :=
  (if (65 <=? c) && (c <=? 90) then Some (c - 65)
   else if (97 <=? c) && (c <=? 122) then Some (c - 71)
   else if (48 <=? c) && (c <=? 57) then Some (c + 4)
   else if c =? 43 then Some 62
   else if c =? 47 then Some 63
   else None)%N.

(** Three bytes give four sextets; a last group of one or two bytes is
    completed with zero bits and padded with [=]. *)
Fixpoint encodeBytes (bs : list N) : jsstring :=
  match bs with
  | [] => []
  | [a] =>
      [encodeSextet (a / 4); encodeSextet ((a mod 4) * 16); padChar; padChar]%N
  | [a; b] =>
      [encodeSextet (a / 4); encodeSextet ((a mod 4) * 16 + b / 16);
       encodeSextet ((b mod 16) * 4); padChar]%N
  | a :: b :: c :: rest =>
      ([encodeSextet (a / 4); encodeSextet ((a mod 4) * 16 + b / 16);
        encodeSextet ((b mod 16) * 4 + c / 64); encodeSextet (c mod 64)]%N)
      ++ encodeBytes rest
  end.

Definition isLatin1 (s : jsstring) : bool := forallb (fun c => c <=? 255)%N s.

(** [btoa s] throws an InvalidCharacterError ([None]) when [s] holds a
    code unit above U+00FF. *)
Definition btoa (s : jsstring) : option jsstring :=
  if isLatin1 s then Some (encodeBytes s) else None.

Definition isAsciiWhitespace (c : codeunit) : bool :=
  ((c =? 9) || (c =? 10) || (c =? 12) || (c =? 13) || (c =? 32))%N.

(** Remove a final [=]. *)
Definition dropPad (s : jsstring) : jsstring :=
  match rev s with
  | c :: r => if (c =? padChar)%N then rev r else s
  | [] => s
  end.

(** A string whose length is a multiple of four loses one or two final
    [=]. *)
Definition stripPadding (s : jsstring) : jsstring :=
  if (length s mod 4 =? 0)%nat then dropPad (dropPad s) else s.

Fixpoint decodeChars (s : jsstring) : option (list N) :=
  match s with
  | [] => Some []
  | c :: r =>
      match decodeChar c, decodeChars r with
      | Some n, Some ns => Some (n :: ns)
      | _, _ => None
      end
  end.

(** Four sextets give three bytes; of a last group of two or three
    sextets the bits that do not fill a byte are dropped. *)
Fixpoint decodeSextets (l : list N) : list N :=
  match l with
  | a :: b :: c :: d :: rest =>
      ([a * 4 + b / 16; (b mod 16) * 16 + c / 4; (c mod 4) * 64 + d]%N)
      ++ decodeSextets rest
  | [a; b; c] => [a * 4 + b / 16; (b mod 16) * 16 + c / 4]%N
  | [a; b] => [a * 4 + b / 16]%N
  | _ => []
  end.

(** [atob s] throws ([None]) on a string that is not base64. *)
Definition atob (s : jsstring) : option jsstring :=
  let d := stripPadding (filter (fun c => negb (isAsciiWhitespace c)) s) in
  if (length d mod 4 =? 1)%nat then None
  else match decodeChars d with
       | Some l => Some (decodeSextets l)
       | None => None
       end.

(** The sextets [encodeBytes] encodes, and the padding it adds. *)
Fixpoint toSextets (bs : list N) : list N :=
  match bs with
  | [] => []
  | [a] => [a / 4; (a mod 4) * 16]%N
  | [a; b] => [a / 4; (a mod 4) * 16 + b / 16; (b mod 16) * 4]%N
  | a :: b :: c :: rest =>
      ([a / 4; (a mod 4) * 16 + b / 16; (b mod 16) * 4 + c / 64; c mod 64]%N)
      ++ toSextets rest
  end.

Fixpoint paddingOf (bs : list N) : jsstring :=
  match bs with
  | [] => []
  | [_] => [padChar; padChar]
  | [_; _] => [padChar]
  | _ :: _ :: _ :: rest => paddingOf rest
  end.

End JS.

(* ================================================================== *)
(** * The network and the effects of an asynchronous function            *)
(* ================================================================== *)

Module Eff.
Import JS.

(** The endpoints the components address.  Each one stands for the URL
    template of the source, under [getGitHubApiUrl()]:
    - [EnvironmentR]: [/repos/${org}/${repo}/environments/${env}]
    - [SecretR]:      [.../environments/${env}/secrets/${name}]
    - [SecretsR]:     [.../environments/${env}/secrets]
    - [VariablesR]:   [.../environments/${env}/variables] *)
Inductive Resource :=
| EnvironmentR (repo env : jsstring)
| SecretR (repo env name : jsstring)
| SecretsR (repo env : jsstring)
| VariablesR (repo env : jsstring).

Inductive Method := GET | PUT | POST.

(** The JSON bodies the components send. *)
Inductive Body :=
| NoBody
| EmptyObject
| EncryptedValue (encrypted_value : jsstring)
| NameValue (name value : jsstring).

Record Request := { method : Method; resource : Resource; body : Body }.

(** What [response.json()] gives for a listing: [None] for an absent
    field. *)
Record Listing := {
  secrets : option (list jsstring);
  variables : option (list (jsstring * jsstring))
}.

(** A response; [json = None] when the body does not parse. *)
Record Response := { status : N; json : option Listing }.

Definition ok (r : Response) : bool :=
  ((200 <=? status r) && (status r <=? 299))%N.

(** A thrown value: an [Error] object with its message, or anything
    else. *)
Inductive Thrown := ErrorObject (message : jsstring) | NonError.

Inductive FetchOutcome := Resolves (r : Response) | Rejects (e : Thrown).

(** The world outside the program: how the remote answers a request,
    given every request this run has issued before it, and the message
    of the exception [btoa] throws. *)
Record Platform := {
  net : list Request -> Request -> FetchOutcome;
  invalidCharacterMessage : jsstring
}.

Inductive Completion (A : Type) :=
| Returns (a : A)
| Throws (e : Thrown).
Arguments Returns {A} a.
Arguments Throws {A} e.

(** The state a function runs in: the requests issued so far, oldest
    first, and the state of the component. *)
Record Sys (C : Type) := { requests : list Request; comp : C }.
Arguments requests {C} s.
Arguments comp {C} s.
Arguments Build_Sys {C} requests comp.

Definition M (C A : Type) : Type := Sys C -> Completion A * Sys C.

Section Monad.
Context {C : Type}.

Definition ret {A} (a : A) : M C A := fun s => (Returns a, s).

Definition throw {A} (e : Thrown) : M C A := fun s => (Throws e, s).

Definition bind {A B} (m : M C A) (k : A -> M C B) : M C B :=
  fun s =>
    match m s with
    | (Returns a, s') => k a s'
    | (Throws e, s') => (Throws e, s')
    end.

(** [try { m } catch (error) { handler error }] *)
Definition tryCatch {A} (m : M C A) (handler : Thrown -> M C A) : M C A :=
  fun s =>
    match m s with
    | (Returns a, s') => (Returns a, s')
    | (Throws e, s') => handler e s'
    end.

(** [try { m } finally { f }], for an [f] that does not throw. *)
Definition tryFinally {A} (m : M C A) (f : C -> C) : M C A :=
  fun s =>
    let (r, s') := m s in
    (r, {| requests := requests s'; comp := f (comp s') |}).

Definition modify (f : C -> C) : M C unit :=
  fun s => (Returns tt, {| requests := requests s; comp := f (comp s) |}).

Definition gets {A} (f : C -> A) : M C A :=
  fun s => (Returns (f (comp s)), s).

Definition liftCompletion {A} (c : Completion A) : M C A :=
  fun s => (c, s).

(** [await fetch(...)]: the request goes out, then the promise
    resolves with a response or rejects. *)
Definition fetch (pf : Platform) (r : Request) : M C Response :=
  fun s =>
    let s' := {| requests := requests s ++ [r]; comp := comp s |} in
    match net pf (requests s) r with
    | Resolves resp => (Returns resp, s')
    | Rejects e => (Throws e, s')
    end.

(** [fetch(...)] whose promise is not awaited: the request goes out
    and the caller goes on. *)
Definition fetchDetached (r : Request) : M C unit :=
  fun s => (Returns tt, {| requests := requests s ++ [r]; comp := comp s |}).

(** [await response.json()] *)
Definition jsonOf (r : Response) : M C Listing :=
  match json r with
  | Some l => ret l
  | None => throw (ErrorObject (lit "Unexpected end of JSON input"))
  end.

(** [for (const x of l) { body x }] *)
Fixpoint forOf {A} (l : list A) (body : A -> M C unit) : M C unit :=
  match l with
  | [] => ret tt
  | x :: r => bind (body x) (fun _ => forOf r body)
  end.

End Monad.

Module Notations.
Notation "x <- m ;; k" := (bind m (fun x => k))
  (at level 61, m at next level, right associativity).
Notation "m ;; k" := (bind m (fun _ => k))
  (at level 61, right associativity).
End Notations.

(** [String(n)] for a non-negative integer. *)
Definition numberToString (n : N) : jsstring :=
  lit (DecimalString.NilZero.string_of_uint (N.to_uint n)).

End Eff.

(* ================================================================== *)
(** * bulk-operations: the cross-product engine                         *)
(* ================================================================== *)

Module BulkOperations.
Import JS Eff Eff.Notations.

Record OperationResult := {
  repo : jsstring;
  environment : jsstring;
  success : bool;
  error : option jsstring
}.

Definition COMMON_ENVIRONMENTS : list jsstring :=
  map lit ["production"; "staging"; "development"; "preview"]%string.

Record Toast := { title : jsstring; description : jsstring }.

(** What a call closes over: the props and the form state of the render
    it was started from.  [onEnvironmentCreated] tells whether the
    optional callback was passed. *)
Record Form := {
  organization : jsstring;
  token : jsstring;
  onEnvironmentCreated : bool;
  selectedRepos : list jsstring;
  selectedEnvironments : list jsstring;
  secretName : jsstring;
  secretValue : jsstring;
  variableName : jsstring;
  variableValue : jsstring
}.

(** What a call writes: the React state behind the setters
    ([isProcessing], [progress], [results]), what leaves the component
    (every value given to [setProgress], the toasts, the calls of the
    callback), and the two mutable locals of the running call. *)
Record State := {
  isProcessing : bool;
  progress : Q;
  results : list OperationResult;
  progressLog : list Q;
  toasts : list Toast;
  environmentCreatedCalls : nat;
  completedOperations : nat;
  operationResults : list OperationResult
}.

Definition setIsProcessing (b : bool) (c : State) : State :=
  {| isProcessing := b; progress := progress c; results := results c;
     progressLog := progressLog c; toasts := toasts c;
     environmentCreatedCalls := environmentCreatedCalls c;
     completedOperations := completedOperations c;
     operationResults := operationResults c |}.

Definition setProgress (p : Q) (c : State) : State :=
  {| isProcessing := isProcessing c; progress := p; results := results c;
     progressLog := progressLog c ++ [p]; toasts := toasts c;
     environmentCreatedCalls := environmentCreatedCalls c;
     completedOperations := completedOperations c;
     operationResults := operationResults c |}.

Definition setResults (rs : list OperationResult) (c : State) : State :=
  {| isProcessing := isProcessing c; progress := progress c; results := rs;
     progressLog := progressLog c; toasts := toasts c;
     environmentCreatedCalls := environmentCreatedCalls c;
     completedOperations := completedOperations c;
     operationResults := operationResults c |}.

Definition toast (t : Toast) (c : State) : State :=
  {| isProcessing := isProcessing c; progress := progress c;
     results := results c;
     progressLog := progressLog c; toasts := toasts c ++ [t];
     environmentCreatedCalls := environmentCreatedCalls c;
     completedOperations := completedOperations c;
     operationResults := operationResults c |}.

(** [onEnvironmentCreated()]: the callback of the parent.  The one
    repository-grid passes starts its own refresh of the environment
    lists and returns; here its call is counted, and what it does is
    left outside the component. *)
Definition callOnEnvironmentCreated (c : State) : State :=
  {| isProcessing := isProcessing c; progress := progress c;
     results := results c;
     progressLog := progressLog c; toasts := toasts c;
     environmentCreatedCalls := S (environmentCreatedCalls c);
     completedOperations := completedOperations c;
     operationResults := operationResults c |}.

(** [let completedOperations = 0; const operationResults = []] *)
Definition initLocals (c : State) : State :=
  {| isProcessing := isProcessing c; progress := progress c;
     results := results c;
     progressLog := progressLog c; toasts := toasts c;
     environmentCreatedCalls := environmentCreatedCalls c;
     completedOperations := 0;
     operationResults := [] |}.

(** [completedOperations++] *)
Definition incrCompleted (c : State) : State :=
  {| isProcessing := isProcessing c; progress := progress c;
     results := results c;
     progressLog := progressLog c; toasts := toasts c;
     environmentCreatedCalls := environmentCreatedCalls c;
     completedOperations := S (completedOperations c);
     operationResults := operationResults c |}.

(** [operationResults.push(r)] *)
Definition pushResult (r : OperationResult) (c : State) : State :=
  {| isProcessing := isProcessing c; progress := progress c;
     results := results c;
     progressLog := progressLog c; toasts := toasts c;
     environmentCreatedCalls := environmentCreatedCalls c;
     completedOperations := completedOperations c;
     operationResults := operationResults c ++ [r] |}.

(** [(completedOperations / totalOperations) * 100], the numbers of
    JavaScript read as exact rationals. *)
Definition progressOf (completed total : nat) : Q :=
  (inject_Z (Z.of_nat completed) / inject_Z (Z.of_nat total)) * 100.

(** How the body of the inner loop is left. *)
Inductive LoopExit := FallsThrough | Continues.

Section Calls.
Variable pf : Platform.
Variable f : Form.

Definition createEnvironmentIfNeeded (repoName envName : jsstring)
  : M State bool :=
  tryCatch
    (checkResponse <-
       fetch pf {| method := GET; resource := EnvironmentR repoName envName;
                   body := NoBody |};;
     if (status checkResponse =? 404)%N then
       createResponse <-
         fetch pf {| method := PUT;
                     resource := EnvironmentR repoName envName;
                     body := EmptyObject |};;
       (if ok createResponse && onEnvironmentCreated f
        then modify callOnEnvironmentCreated
        else ret tt);;
       ret (ok createResponse)
     else ret (ok checkResponse))
    (fun _ => (* console.error(...) *) ret false).

(** [setProgress((completedOperations / totalOperations) * 100)] *)
Definition reportProgress (totalOperations : nat) : M State unit :=
  completed <- gets completedOperations;;
  modify (setProgress (progressOf completed totalOperations)).

Definition errorMessage (e : Thrown) : jsstring :=
  match e with
  | ErrorObject message => message
  | NonError => lit "Unknown error"
  end.

(** The body of the inner loop.  It is the same text in
    [bulkCreateSecrets] and [bulkCreateVariables] but for the write
    request, [write repo env]: building it may throw before anything
    is sent. *)
Definition bulkTarget (write : jsstring -> jsstring -> Completion Request)
    (totalOperations : nat) (repo env : jsstring) : M State unit :=
  exit <-
    tryCatch
      (envCreated <- createEnvironmentIfNeeded repo env;;
       if negb envCreated then
         modify (pushResult
           {| repo := repo; environment := env; success := false;
              error := Some (lit "Failed to create/access environment") |});;
         modify incrCompleted;;
         reportProgress totalOperations;;
         ret Continues
       else
         request <- liftCompletion (write repo env);;
         response <- fetch pf request;;
         modify (pushResult
           {| repo := repo; environment := env; success := ok response;
              error := if ok response then None
                       else Some (lit "HTTP " ++
                                  numberToString (status response)) |});;
         ret FallsThrough)
      (fun error =>
         modify (pushResult
           {| repo := repo; environment := env; success := false;
              error := Some (errorMessage error) |});;
         ret FallsThrough);;
  match exit with
  | Continues => ret tt
  | FallsThrough =>
      modify incrCompleted;;
      reportProgress totalOperations
  end.

(** The two nested [for ... of] loops. *)
Definition bulkLoop (write : jsstring -> jsstring -> Completion Request)
    (totalOperations : nat) : M State unit :=
  forOf (selectedRepos f) (fun repo =>
    forOf (selectedEnvironments f) (fun env =>
      bulkTarget write totalOperations repo env)).

Definition secretWrite (repo env : jsstring) : Completion Request :=
  match btoa (secretValue f) with
  | Some encrypted =>
      Returns {| method := PUT;
                 resource := SecretR repo env (secretName f);
                 body := EncryptedValue encrypted |}
  | None => Throws (ErrorObject (invalidCharacterMessage pf))
  end.

Definition variableWrite (repo env : jsstring) : Completion Request :=
  Returns {| method := POST; resource := VariablesR repo env;
             body := NameValue (variableName f) (variableValue f) |}.

Definition successCountOf (rs : list OperationResult) : nat :=
  length (filter success rs).

Definition locationsText (what : string) (successCount total : nat)
  : jsstring :=
  lit "Successfully created " ++ lit what ++ lit " in " ++
  numberToString (N.of_nat successCount) ++ lit "/" ++
  numberToString (N.of_nat total) ++ lit " locations".

Definition bulkCreateSecrets : M State unit :=
  if falsy (trim (secretName f)) || falsy (trim (secretValue f))
     || (length (selectedRepos f) =? 0)
     || (length (selectedEnvironments f) =? 0)
  then ret tt
  else
    modify (setIsProcessing true);;
    modify (setProgress 0);;
    modify (setResults []);;
    let totalOperations :=
      length (selectedRepos f) * length (selectedEnvironments f) in
    modify initLocals;;
    bulkLoop secretWrite totalOperations;;
    operationResults <- gets operationResults;;
    modify (setResults operationResults);;
    modify (setIsProcessing false);;
    let successCount := successCountOf operationResults in
    modify (toast
      {| title := lit "Bulk Secret Creation Complete";
         description :=
           locationsText "secret" successCount totalOperations |}).

Definition bulkCreateVariables : M State unit :=
  if falsy (trim (variableName f)) || falsy (trim (variableValue f))
     || (length (selectedRepos f) =? 0)
     || (length (selectedEnvironments f) =? 0)
  then ret tt
  else
    modify (setIsProcessing true);;
    modify (setProgress 0);;
    modify (setResults []);;
    let totalOperations :=
      length (selectedRepos f) * length (selectedEnvironments f) in
    modify initLocals;;
    bulkLoop variableWrite totalOperations;;
    operationResults <- gets operationResults;;
    modify (setResults operationResults);;
    modify (setIsProcessing false);;
    let successCount := successCountOf operationResults in
    modify (toast
      {| title := lit "Bulk Variable Creation Complete";
         description :=
           locationsText "variable" successCount totalOperations |}).

End Calls.

End BulkOperations.

(* ================================================================== *)
(** * environment-manager: createSecret and createVariable               *)
(* ================================================================== *)

Module EnvironmentManager.
Import JS Eff Eff.Notations.

Record Toast := {
  title : jsstring;
  description : jsstring;
  variant : option jsstring
}.

(** The props and the state of the render a call was started from. *)
Record Form := {
  organization : jsstring;
  repository : jsstring;
  environment : jsstring;
  token : jsstring;
  secretName : jsstring;
  secretValue : jsstring;
  variableName : jsstring;
  variableValue : jsstring;
  selectedRepos : list jsstring;
  selectedEnvironments : list jsstring;
  bulkMode : bool
}.

(** What a call writes: the React state behind [setIsCreating],
    [setLoading] and the four setters of the form fields, the toasts,
    and the local [successCount] of the running call. *)
Record State := {
  isCreating : bool;
  loading : bool;
  secretNameField : jsstring;
  secretValueField : jsstring;
  variableNameField : jsstring;
  variableValueField : jsstring;
  toasts : list Toast;
  successCount : nat
}.

Definition setIsCreating (b : bool) (c : State) : State :=
  {| isCreating := b; loading := loading c;
     secretNameField := secretNameField c;
     secretValueField := secretValueField c;
     variableNameField := variableNameField c;
     variableValueField := variableValueField c;
     toasts := toasts c; successCount := successCount c |}.

Definition setLoading (b : bool) (c : State) : State :=
  {| isCreating := isCreating c; loading := b;
     secretNameField := secretNameField c;
     secretValueField := secretValueField c;
     variableNameField := variableNameField c;
     variableValueField := variableValueField c;
     toasts := toasts c; successCount := successCount c |}.

Definition setSecretName (v : jsstring) (c : State) : State :=
  {| isCreating := isCreating c; loading := loading c;
     secretNameField := v;
     secretValueField := secretValueField c;
     variableNameField := variableNameField c;
     variableValueField := variableValueField c;
     toasts := toasts c; successCount := successCount c |}.

Definition setSecretValue (v : jsstring) (c : State) : State :=
  {| isCreating := isCreating c; loading := loading c;
     secretNameField := secretNameField c;
     secretValueField := v;
     variableNameField := variableNameField c;
     variableValueField := variableValueField c;
     toasts := toasts c; successCount := successCount c |}.

Definition setVariableName (v : jsstring) (c : State) : State :=
  {| isCreating := isCreating c; loading := loading c;
     secretNameField := secretNameField c;
     secretValueField := secretValueField c;
     variableNameField := v;
     variableValueField := variableValueField c;
     toasts := toasts c; successCount := successCount c |}.

Definition setVariableValue (v : jsstring) (c : State) : State :=
  {| isCreating := isCreating c; loading := loading c;
     secretNameField := secretNameField c;
     secretValueField := secretValueField c;
     variableNameField := variableNameField c;
     variableValueField := v;
     toasts := toasts c; successCount := successCount c |}.

Definition toast (t : Toast) (c : State) : State :=
  {| isCreating := isCreating c; loading := loading c;
     secretNameField := secretNameField c;
     secretValueField := secretValueField c;
     variableNameField := variableNameField c;
     variableValueField := variableValueField c;
     toasts := toasts c ++ [t]; successCount := successCount c |}.

(** [let successCount = 0] and [successCount++] *)
Definition setSuccessCount (n : nat) (c : State) : State :=
  {| isCreating := isCreating c; loading := loading c;
     secretNameField := secretNameField c;
     secretValueField := secretValueField c;
     variableNameField := variableNameField c;
     variableValueField := variableValueField c;
     toasts := toasts c; successCount := n |}.

Definition incrSuccessCount (c : State) : State :=
  setSuccessCount (S (successCount c)) c.

Section Calls.
Variable pf : Platform.
Variable f : Form.

(** [fetchSecrets()] as [createSecret] calls it, without [await]: the
    function runs up to its first [await], so loading is set and the
    listing request goes out; the rest of it runs after the caller is
    done. *)
Definition fetchSecretsCalled : M State unit :=
  modify (setLoading true);;
  fetchDetached {| method := GET;
                   resource := SecretsR (repository f) (environment f);
                   body := NoBody |}.

(** [fetchVariables()] without [await]. *)
Definition fetchVariablesCalled : M State unit :=
  fetchDetached {| method := GET;
                   resource := VariablesR (repository f) (environment f);
                   body := NoBody |}.

Definition targetRepos : list jsstring :=
  if bulkMode f then selectedRepos f else [repository f].

Definition targetEnvs : list jsstring :=
  if bulkMode f then selectedEnvironments f else [environment f].

Definition secretWrite (repo env : jsstring) : Completion Request :=
  match btoa (secretValue f) with
  | Some encrypted =>
      Returns {| method := PUT;
                 resource := SecretR repo env (secretName f);
                 body := EncryptedValue encrypted |}
  | None => Throws (ErrorObject (invalidCharacterMessage pf))
  end.

Definition variableWrite (repo env : jsstring) : Completion Request :=
  Returns {| method := POST; resource := VariablesR repo env;
             body := NameValue (variableName f) (variableValue f) |}.

(** The body of the inner loop of both functions. *)
Definition writeTarget (write : jsstring -> jsstring -> Completion Request)
    (repo env : jsstring) : M State unit :=
  request <- liftCompletion (write repo env);;
  response <- fetch pf request;;
  if ok response then modify incrSuccessCount else ret tt.

Definition writeLoop (write : jsstring -> jsstring -> Completion Request)
  : M State unit :=
  forOf targetRepos (fun repo =>
    forOf targetEnvs (fun env => writeTarget write repo env)).

Definition locationsText (what : string) (successCount total : nat)
  : jsstring :=
  lit "Successfully created " ++ lit what ++ lit " in " ++
  numberToString (N.of_nat successCount) ++ lit "/" ++
  numberToString (N.of_nat total) ++ lit " locations".

Definition createSecret : M State unit :=
  if falsy (trim (secretName f)) || falsy (trim (secretValue f))
  then ret tt
  else
    modify (setIsCreating true);;
    tryFinally
      (tryCatch
         (modify (setSuccessCount 0);;
          let totalCount := length targetRepos * length targetEnvs in
          writeLoop secretWrite;;
          successCount <- gets successCount;;
          modify (toast
            {| title := lit "Secret Created";
               description := locationsText "secret" successCount totalCount;
               variant := None |});;
          modify (setSecretName []);;
          modify (setSecretValue []);;
          fetchSecretsCalled)
         (fun _ => (* console.error(...) *)
            modify (toast
              {| title := lit "Error";
                 description := lit "Failed to create secret";
                 variant := Some (lit "destructive") |})))
      (setIsCreating false).

Definition createVariable : M State unit :=
  if falsy (trim (variableName f)) || falsy (trim (variableValue f))
  then ret tt
  else
    modify (setIsCreating true);;
    tryFinally
      (tryCatch
         (modify (setSuccessCount 0);;
          let totalCount := length targetRepos * length targetEnvs in
          writeLoop variableWrite;;
          successCount <- gets successCount;;
          modify (toast
            {| title := lit "Variable Created";
               description :=
                 locationsText "variable" successCount totalCount;
               variant := None |});;
          modify (setVariableName []);;
          modify (setVariableValue []);;
          fetchVariablesCalled)
         (fun _ => (* console.error(...) *)
            modify (toast
              {| title := lit "Error";
                 description := lit "Failed to create variable";
                 variant := Some (lit "destructive") |})))
      (setIsCreating false).

End Calls.

End EnvironmentManager.

(* ================================================================== *)
(** * global-secrets-list: the inventory scan                            *)
(* ================================================================== *)

Module GlobalSecretsList.
Import JS Eff Eff.Notations.

Record Repository := { name : jsstring; full_name : jsstring }.

Record Location := { repository : jsstring; environment : jsstring }.

(** An element of [VariableLocation.locations]: a location and the
    value read there. *)
Record ValuedLocation := { place : Location; value : jsstring }.

(** [SecretLocation] is [Entry Location] and [VariableLocation] is
    [Entry ValuedLocation]. *)
Record Entry (L : Type) := {
  entryName : jsstring;
  locations : list L;
  missingIn : list Location
}.
Arguments entryName {L} e.
Arguments locations {L} e.
Arguments missingIn {L} e.
Arguments Build_Entry {L} entryName locations missingIn.

Definition SecretLocation := Entry Location.
Definition VariableLocation := Entry ValuedLocation.

Definition COMMON_ENVIRONMENTS : list jsstring :=
  map lit ["production"; "staging"; "development"; "preview"]%string.

(** A [Map] with string keys: the entries in insertion order. *)
Definition JsMap (V : Type) := list (jsstring * V).

Section JsMap.
Context {V : Type}.

Definition has (k : jsstring) (m : JsMap V) : bool :=
  existsb (fun p => eqb (fst p) k) m.

Fixpoint get (k : jsstring) (m : JsMap V) : option V :=
  match m with
  | [] => None
  | (k', v) :: r => if eqb k' k then Some v else get k r
  end.

Fixpoint replace (k : jsstring) (v : V) (m : JsMap V) : JsMap V :=
  match m with
  | [] => []
  | (k', v') :: r =>
      if eqb k' k then (k', v) :: r else (k', v') :: replace k v r
  end.

Definition set (k : jsstring) (v : V) (m : JsMap V) : JsMap V :=
  if has k m then replace k v m else m ++ [(k, v)].

(** [m.get(k)!] changed in place by [g]. *)
Fixpoint mutate (k : jsstring) (g : V -> V) (m : JsMap V) : JsMap V :=
  match m with
  | [] => []
  | (k', v) :: r =>
      if eqb k' k then (k', g v) :: r else (k', v) :: mutate k g r
  end.

(** [m.forEach((v) => ...)] for a body that changes [v] in place. *)
Definition forEachValue (g : V -> V) (m : JsMap V) : JsMap V :=
  map (fun p => (fst p, g (snd p))) m.

Definition values (m : JsMap V) : list V := map snd m.
End JsMap.

Record Toast := {
  title : jsstring;
  description : jsstring;
  variant : option jsstring
}.

Record Props := {
  organization : jsstring;
  repositories : list Repository;
  token : jsstring
}.

(** The React state behind [setSecretsMap], [setVariablesMap] and
    [setLoading], the toasts, and the two maps the running call builds. *)
Record State := {
  secretsMap : JsMap SecretLocation;
  variablesMap : JsMap VariableLocation;
  loading : bool;
  toasts : list Toast;
  newSecretsMap : JsMap SecretLocation;
  newVariablesMap : JsMap VariableLocation
}.

Definition setSecretsMap (m : JsMap SecretLocation) (c : State) : State :=
  {| secretsMap := m; variablesMap := variablesMap c; loading := loading c;
     toasts := toasts c; newSecretsMap := newSecretsMap c;
     newVariablesMap := newVariablesMap c |}.

Definition setVariablesMap (m : JsMap VariableLocation) (c : State) : State :=
  {| secretsMap := secretsMap c; variablesMap := m; loading := loading c;
     toasts := toasts c; newSecretsMap := newSecretsMap c;
     newVariablesMap := newVariablesMap c |}.

Definition setLoading (b : bool) (c : State) : State :=
  {| secretsMap := secretsMap c; variablesMap := variablesMap c; loading := b;
     toasts := toasts c; newSecretsMap := newSecretsMap c;
     newVariablesMap := newVariablesMap c |}.

Definition toast (t : Toast) (c : State) : State :=
  {| secretsMap := secretsMap c; variablesMap := variablesMap c;
     loading := loading c;
     toasts := toasts c ++ [t]; newSecretsMap := newSecretsMap c;
     newVariablesMap := newVariablesMap c |}.

Definition withNewSecretsMap (g : JsMap SecretLocation -> JsMap SecretLocation)
    (c : State) : State :=
  {| secretsMap := secretsMap c; variablesMap := variablesMap c;
     loading := loading c;
     toasts := toasts c; newSecretsMap := g (newSecretsMap c);
     newVariablesMap := newVariablesMap c |}.

Definition withNewVariablesMap
    (g : JsMap VariableLocation -> JsMap VariableLocation)
    (c : State) : State :=
  {| secretsMap := secretsMap c; variablesMap := variablesMap c;
     loading := loading c;
     toasts := toasts c; newSecretsMap := newSecretsMap c;
     newVariablesMap := g (newVariablesMap c) |}.

(** [`${loc.repository}:${loc.environment}`] *)
Definition key (loc : Location) : jsstring :=
  repository loc ++ lit ":" ++ environment loc.

Section Entries.
Context {L : Type}.
Variable whereIs : L -> Location.

(** The body of [secrets.forEach] and [variables.forEach]: start the
    entry of [n] when the map has none, then push [l] on its
    locations. *)
Definition sight (n : jsstring) (l : L) (m : JsMap (Entry L))
  : JsMap (Entry L) :=
  let m1 :=
    if negb (has n m)
    then set n {| entryName := n; locations := []; missingIn := [] |} m
    else m in
  mutate n
    (fun e => {| entryName := entryName e;
                 locations := locations e ++ [l];
                 missingIn := missingIn e |})
    m1.

Definition sightAll (items : list (jsstring * L)) (m : JsMap (Entry L))
  : JsMap (Entry L) :=
  fold_left (fun acc item => sight (fst item) (snd item) acc) items m.

(** The body of [newSecretsMap.forEach] and [newVariablesMap.forEach]:
    [existingLocations] is the set of keys of the entry's locations,
    [missingIn] the locations of the grid whose key is not in it. *)
Definition fillMissing (allLocations : list Location) (e : Entry L)
  : Entry L :=
  let existingLocations := map (fun loc => key (whereIs loc)) (locations e) in
  {| entryName := entryName e;
     locations := locations e;
     missingIn :=
       filter (fun loc => negb (existsb (eqb (key loc)) existingLocations))
              allLocations |}.
End Entries.

Definition orEmpty {A} (o : option (list A)) : list A :=
  match o with Some l => l | None => [] end.

Section Calls.
Variable pf : Platform.
Variable p : Props.

Definition scanSecrets (repo : Repository) (env : jsstring) : M State unit :=
  tryCatch
    (secretsResponse <-
       fetch pf {| method := GET; resource := SecretsR (name repo) env;
                   body := NoBody |};;
     if ok secretsResponse then
       secretsData <- jsonOf secretsResponse;;
       let secrets := orEmpty (secrets secretsData) in
       modify (withNewSecretsMap
         (sightAll
            (map (fun n => (n, {| repository := name repo;
                                  environment := env |})) secrets)))
     else ret tt)
    (fun _ => (* console.error(...) *) ret tt).

Definition scanVariables (repo : Repository) (env : jsstring)
  : M State unit :=
  tryCatch
    (variablesResponse <-
       fetch pf {| method := GET; resource := VariablesR (name repo) env;
                   body := NoBody |};;
     if ok variablesResponse then
       variablesData <- jsonOf variablesResponse;;
       let variables := orEmpty (variables variablesData) in
       modify (withNewVariablesMap
         (sightAll
            (map (fun v => (fst v,
                            {| place := {| repository := name repo;
                                           environment := env |};
                               value := snd v |})) variables)))
     else ret tt)
    (fun _ => (* console.error(...) *) ret tt).

Definition allLocations : list Location :=
  flat_map (fun repo =>
              map (fun env => {| repository := name repo;
                                 environment := env |})
                  COMMON_ENVIRONMENTS)
           (repositories p).

Definition fetchAllSecretsAndVariables : M State unit :=
  modify (setLoading true);;
  modify (withNewSecretsMap (fun _ => []));;
  modify (withNewVariablesMap (fun _ => []));;
  tryFinally
    (tryCatch
       (forOf (repositories p) (fun repo =>
          forOf COMMON_ENVIRONMENTS (fun env =>
            scanSecrets repo env;;
            scanVariables repo env));;
        modify (withNewSecretsMap
                  (forEachValue (fillMissing (fun l => l) allLocations)));;
        modify (withNewVariablesMap
                  (forEachValue (fillMissing place allLocations)));;
        newSecretsMap <- gets newSecretsMap;;
        modify (setSecretsMap newSecretsMap);;
        newVariablesMap <- gets newVariablesMap;;
        modify (setVariablesMap newVariablesMap))
       (fun _ => (* console.error(...) *)
          modify (toast
            {| title := lit "Error";
               description := lit "Failed to fetch secrets and variables";
               variant := Some (lit "destructive") |})))
    (setLoading false).

End Calls.

End GlobalSecretsList.

(* ================================================================== *)
(** * Vocabulary of the statements                                       *)
(* ================================================================== *)

(** [bulkCreateSecrets] or [bulkCreateVariables], [createSecret] or
    [createVariable]. *)
Inductive Kind := Secrets | Variables.

Module BulkSpec.
Import JS Eff BulkOperations.

(** The existence check and the create call of an environment. *)
Definition envCheck (repo env : jsstring) : Request :=
  {| method := GET; resource := EnvironmentR repo env; body := NoBody |}.

Definition envCreate (repo env : jsstring) : Request :=
  {| method := PUT; resource := EnvironmentR repo env; body := EmptyObject |}.

Definition onlyCallbackCalled (c c' : State) : Prop :=
  c' = c \/ c' = callOnEnvironmentCreated c.

Definition target (r : OperationResult) : jsstring * jsstring :=
  (repo r, environment r).

(** A success has no error, a failure has one. *)
Definition explained (r : OperationResult) : Prop :=
  if success r then error r = None else error r <> None.

(** What one pass of the loop body does to the component. *)
Definition stepped (total : nat) (t : jsstring * jsstring)
    (r : OperationResult) (c c' : State) : Prop :=
  operationResults c' = operationResults c ++ [r]
  /\ target r = t /\ explained r
  /\ completedOperations c' = S (completedOperations c)
  /\ progress c' = progressOf (S (completedOperations c)) total
  /\ progressLog c'
     = progressLog c ++ [progressOf (S (completedOperations c)) total]
  /\ isProcessing c' = isProcessing c
  /\ results c' = results c
  /\ toasts c' = toasts c.

Definition environmentFailure (repo env : jsstring) : OperationResult :=
  {| repo := repo; environment := env; success := false;
     error := Some (lit "Failed to create/access environment") |}.

(** The requests one target may add after its existence check. *)
Definition laterRequest (write : jsstring -> jsstring -> Completion Request)
    (t : jsstring * jsstring) (q : Request) : Prop :=
  q = envCreate (fst t) (snd t) \/ write (fst t) (snd t) = Returns q.

(** The requests of one target: the existence check, then at most the
    create call and the write. *)
Definition block (write : jsstring -> jsstring -> Completion Request)
    (t : jsstring * jsstring) (b : list Request) : Prop :=
  exists d, b = envCheck (fst t) (snd t) :: d
            /\ Forall (laterRequest write t) d.

Definition progressSteps (total from count : nat) : list Q :=
  map (fun k => progressOf k total) (seq from count).

(** What a run of the loop body over the targets [ts] does. *)
Definition ran (total : nat) (ts : list (jsstring * jsstring))
    (rs : list OperationResult) (c c' : State) : Prop :=
  operationResults c' = operationResults c ++ rs
  /\ map target rs = ts /\ Forall explained rs
  /\ completedOperations c' = completedOperations c + length ts
  /\ progressLog c'
     = progressLog c
       ++ progressSteps total (S (completedOperations c)) (length ts)
  /\ progress c'
     = last (progressSteps total (S (completedOperations c)) (length ts))
            (progress c)
  /\ isProcessing c' = isProcessing c
  /\ results c' = results c
  /\ toasts c' = toasts c.

(** The state the loops start from. *)
Definition started (s : Sys State) : Sys State :=
  {| requests := requests s;
     comp := initLocals
               (setResults []
                  (setProgress 0 (setIsProcessing true (comp s)))) |}.

Section Calls.
Variable pf : Platform.
Variable f : Form.

Definition targets : list (jsstring * jsstring) :=
  list_prod (selectedRepos f) (selectedEnvironments f).

Definition totalOperations : nat :=
  length (selectedRepos f) * length (selectedEnvironments f).

(** The part of both functions after the guard. *)
Definition bulkRun (write : jsstring -> jsstring -> Completion Request)
    (title : jsstring) (what : string) : M State unit :=
  bind (modify (setIsProcessing true)) (fun _ =>
  bind (modify (setProgress 0)) (fun _ =>
  bind (modify (setResults [])) (fun _ =>
  bind (modify initLocals) (fun _ =>
  bind (bulkLoop pf f write totalOperations) (fun _ =>
  bind (gets operationResults) (fun operationResults =>
  bind (modify (setResults operationResults)) (fun _ =>
  bind (modify (setIsProcessing false)) (fun _ =>
  modify (toast
    {| title := title;
       description :=
         locationsText what (successCountOf operationResults)
                       totalOperations |}))))))))).

Definition bulkCreate (k : Kind) : M State unit :=
  match k with
  | Secrets => bulkCreateSecrets pf f
  | Variables => bulkCreateVariables pf f
  end.

Definition nameOf (k : Kind) : jsstring :=
  match k with Secrets => secretName f | Variables => variableName f end.

Definition valueOf (k : Kind) : jsstring :=
  match k with Secrets => secretValue f | Variables => variableValue f end.

Definition writeOf (k : Kind) : jsstring -> jsstring -> Completion Request :=
  match k with
  | Secrets => secretWrite pf f
  | Variables => variableWrite f
  end.

(** The toast at the end of a run. *)
Definition reportOf (k : Kind) (successCount : nat) : Toast :=
  match k with
  | Secrets =>
      {| title := lit "Bulk Secret Creation Complete";
         description :=
           locationsText "secret" successCount totalOperations |}
  | Variables =>
      {| title := lit "Bulk Variable Creation Complete";
         description :=
           locationsText "variable" successCount totalOperations |}
  end.

(** The guard lets the call through. *)
Definition accepted (k : Kind) : Prop :=
  blank (nameOf k) = false /\ blank (valueOf k) = false
  /\ selectedRepos f <> [] /\ selectedEnvironments f <> [].

(** The guard returns at once. *)
Definition rejected (k : Kind) : Prop :=
  blank (nameOf k) = true \/ blank (valueOf k) = true
  \/ selectedRepos f = [] \/ selectedEnvironments f = [].

(** The state the call ends in, given the state the loops end in. *)
Definition finished (k : Kind) (s : Sys State) : Sys State :=
  {| requests := requests s;
     comp := toast (reportOf k (successCountOf (operationResults (comp s))))
               (setIsProcessing false
                  (setResults (operationResults (comp s)) (comp s))) |}.

Definition loopBody (k : Kind) (t : jsstring * jsstring) : M State unit :=
  bulkTarget pf f (writeOf k) totalOperations (fst t) (snd t).


End Calls.

(** A caller can tell that a call was refused: it threw, or it left the
    state changed. *)
Definition surfaced (before : Sys State)
    (run : Completion unit * Sys State) : Prop :=
  fst run <> Returns tt \/ snd run <> before.

End BulkSpec.

Module ManagerSpec.
Import JS Eff EnvironmentManager.

(** The component but for [successCount]. *)
Definition sameButCount (c c' : State) : Prop :=
  isCreating c' = isCreating c /\ loading c' = loading c
  /\ secretNameField c' = secretNameField c
  /\ secretValueField c' = secretValueField c
  /\ variableNameField c' = variableNameField c
  /\ variableValueField c' = variableValueField c
  /\ toasts c' = toasts c.


(** The state the loops start from. *)
Definition entered (s : Sys State) : Sys State :=
  {| requests := requests s;
     comp := setSuccessCount 0 (setIsCreating true (comp s)) |}.


Section Calls.
Variable pf : Platform.
Variable f : Form.

Definition create (k : Kind) : M State unit :=
  match k with
  | Secrets => createSecret pf f
  | Variables => createVariable pf f
  end.

Definition writeOf (k : Kind) : jsstring -> jsstring -> Completion Request :=
  match k with
  | Secrets => secretWrite pf f
  | Variables => variableWrite f
  end.

Definition nameOf (k : Kind) : jsstring :=
  match k with Secrets => secretName f | Variables => variableName f end.

Definition valueOf (k : Kind) : jsstring :=
  match k with Secrets => secretValue f | Variables => variableValue f end.

Definition guard (k : Kind) : bool :=
  falsy (trim (nameOf k)) || falsy (trim (valueOf k)).

(** The listing request of [fetchSecrets()] or [fetchVariables()]. *)
Definition refreshOf (k : Kind) : Request :=
  {| method := GET;
     resource := match k with
                 | Secrets => SecretsR (repository f) (environment f)
                 | Variables => VariablesR (repository f) (environment f)
                 end;
     body := NoBody |}.

Definition targets : list (jsstring * jsstring) :=
  list_prod (targetRepos f) (targetEnvs f).

Definition totalCount : nat := length (targetRepos f) * length (targetEnvs f).

(** The toast of a run that went through. *)
Definition reportOf (k : Kind) (successCount : nat) : Toast :=
  match k with
  | Secrets =>
      {| title := lit "Secret Created";
         description := locationsText "secret" successCount totalCount;
         variant := None |}
  | Variables =>
      {| title := lit "Variable Created";
         description := locationsText "variable" successCount totalCount;
         variant := None |}
  end.

(** The toast of a run that a throw cut short. *)
Definition failureOf (k : Kind) : Toast :=
  match k with
  | Secrets =>
      {| title := lit "Error"; description := lit "Failed to create secret";
         variant := Some (lit "destructive") |}
  | Variables =>
      {| title := lit "Error"; description := lit "Failed to create variable";
         variant := Some (lit "destructive") |}
  end.

(** The responses with [ok] among those the remote gives to the
    requests [qs], sent one after the other after the requests [h]. *)
Fixpoint okCount (h qs : list Request) : nat :=
  match qs with
  | [] => 0
  | q :: r =>
      (match net pf h q with
       | Resolves resp => if ok resp then 1 else 0
       | Rejects _ => 0
       end) + okCount (h ++ [q]) r
  end.

(** [q] is the write of the target [t]. *)
Definition written (k : Kind) (t : jsstring * jsstring) (q : Request) : Prop :=
  writeOf k (fst t) (snd t) = Returns q.

Definition loopBody (k : Kind) (t : jsstring * jsstring) : M State unit :=
  writeTarget pf (writeOf k) (fst t) (snd t).

End Calls.

End ManagerSpec.

Module InventorySpec.
Import JS Eff GlobalSecretsList.

Definition colon : codeunit := 58%N.

(** A location of one of the four fixed environments. *)
Definition common (l : Location) : Prop :=
  In (environment l) COMMON_ENVIRONMENTS.

Section Entries.
Context {L : Type}.
Variable whereIs : L -> Location.

Definition places (e : Entry L) : list Location := map whereIs (locations e).

(** The entries only hold locations among [seen], each once. *)
Definition tidy (seen : list Location) (m : JsMap (Entry L)) : Prop :=
  forall k e, In (k, e) m -> incl (places e) seen /\ NoDup (places e).



End Entries.

Definition locationOf (t : Repository * jsstring) : Location :=
  {| repository := name (fst t); environment := snd t |}.

Definition secretItems (t : Repository * jsstring) (ns : list jsstring)
  : list (jsstring * Location) :=
  map (fun n => (n, locationOf t)) ns.

Definition variableItems (t : Repository * jsstring)
    (vs : list (jsstring * jsstring)) : list (jsstring * ValuedLocation) :=
  map (fun v => (fst v, {| place := locationOf t; value := snd v |})) vs.


(** The state the loops start from. *)
Definition scanned (s : Sys State) : Sys State :=
  {| requests := requests s;
     comp := withNewVariablesMap (fun _ => [])
               (withNewSecretsMap (fun _ => []) (setLoading true (comp s))) |}.

(** Every listing the remote gives reports a name at most once. *)
Definition listingsDistinct (pf : Platform) : Prop :=
  forall h q r l,
    net pf h q = Resolves r -> json r = Some l ->
    NoDup (orEmpty (secrets l)) /\ NoDup (map fst (orEmpty (variables l))).

(** The body of the inner loop. *)
Definition scanPair (pf : Platform) (t : Repository * jsstring)
  : M State unit :=
  bind (scanSecrets pf (fst t) (snd t))
       (fun _ => scanVariables pf (fst t) (snd t)).

End InventorySpec.

(* ================================================================== *)
(** * A scenario: two repositories, two environments                     *)
(* ================================================================== *)

Module Scenario.
Import JS Eff.

Definition api : jsstring := lit "api".
Definition web : jsstring := lit "web".
Definition production : jsstring := lit "production".
Definition staging : jsstring := lit "staging".

Definition answer (status : N) : FetchOutcome :=
  Resolves {| status := status; json := None |}.

(** A remote that accepts everything. *)
Definition remoteUp : Platform :=
  {| net := fun _ _ => answer 200;
     invalidCharacterMessage := lit "Invalid character" |}.

(** A remote that cannot be reached. *)
Definition remoteDown : Platform :=
  {| net := fun _ _ => Rejects (ErrorObject (lit "Failed to fetch"));
     invalidCharacterMessage := lit "Invalid character" |}.

(** A remote where no repository has a [staging] environment and none
    can be created (HTTP 422). *)
Definition remoteStagingRefused : Platform :=
  {| net := fun _ q =>
       match resource q, method q with
       | EnvironmentR _ env, GET =>
           if eqb env staging then answer 404 else answer 200
       | EnvironmentR _ _, _ => answer 422
       | _, _ => answer 201
       end;
     invalidCharacterMessage := lit "Invalid character" |}.

Definition bulkForm : BulkOperations.Form :=
  {| BulkOperations.organization := lit "acme";
     BulkOperations.token := lit "ghp_x";
     BulkOperations.onEnvironmentCreated := true;
     BulkOperations.selectedRepos := [api; web];
     BulkOperations.selectedEnvironments := [production; staging];
     BulkOperations.secretName := lit "TOKEN";
     BulkOperations.secretValue := lit "s3cret";
     BulkOperations.variableName := lit "REGION";
     BulkOperations.variableValue := lit "eu" |}.

(** The same form with a secret name of two spaces. *)
Definition blankForm : BulkOperations.Form :=
  {| BulkOperations.organization := lit "acme";
     BulkOperations.token := lit "ghp_x";
     BulkOperations.onEnvironmentCreated := true;
     BulkOperations.selectedRepos := [api; web];
     BulkOperations.selectedEnvironments := [production; staging];
     BulkOperations.secretName := lit "  ";
     BulkOperations.secretValue := lit "s3cret";
     BulkOperations.variableName := lit "REGION";
     BulkOperations.variableValue := lit "eu" |}.

Definition bulkStart : Sys BulkOperations.State :=
  {| requests := [];
     comp := {| BulkOperations.isProcessing := false;
                BulkOperations.progress := 0;
                BulkOperations.results := [];
                BulkOperations.progressLog := [];
                BulkOperations.toasts := [];
                BulkOperations.environmentCreatedCalls := 0;
                BulkOperations.completedOperations := 0;
                BulkOperations.operationResults := [] |} |}.

(** The manager of [api]/[production], not in bulk mode. *)
Definition managerForm : EnvironmentManager.Form :=
  {| EnvironmentManager.organization := lit "acme";
     EnvironmentManager.repository := api;
     EnvironmentManager.environment := production;
     EnvironmentManager.token := lit "ghp_x";
     EnvironmentManager.secretName := lit "TOKEN";
     EnvironmentManager.secretValue := lit "s3cret";
     EnvironmentManager.variableName := lit "REGION";
     EnvironmentManager.variableValue := lit "eu";
     EnvironmentManager.selectedRepos := [api];
     EnvironmentManager.selectedEnvironments := [production];
     EnvironmentManager.bulkMode := false |}.

Definition managerStart : Sys EnvironmentManager.State :=
  {| requests := [];
     comp := {| EnvironmentManager.isCreating := false;
                EnvironmentManager.loading := false;
                EnvironmentManager.secretNameField := lit "TOKEN";
                EnvironmentManager.secretValueField := lit "s3cret";
                EnvironmentManager.variableNameField := lit "REGION";
                EnvironmentManager.variableValueField := lit "eu";
                EnvironmentManager.toasts := [];
                EnvironmentManager.successCount := 0 |} |}.

Definition inventoryProps : GlobalSecretsList.Props :=
  {| GlobalSecretsList.organization := lit "acme";
     GlobalSecretsList.repositories :=
       [ {| GlobalSecretsList.name := api;
            GlobalSecretsList.full_name := lit "acme/api" |};
         {| GlobalSecretsList.name := web;
            GlobalSecretsList.full_name := lit "acme/web" |} ];
     GlobalSecretsList.token := lit "ghp_x" |}.

(** What is stored where: the secret [TOKEN] in [api]/[production] and
    [web]/[staging], the variable [REGION] in [api]/[production]. *)
Definition stored (r : Resource) : Listing :=
  match r with
  | SecretsR repo env =>
      if eqb repo api && eqb env production || eqb repo web && eqb env staging
      then {| secrets := Some [lit "TOKEN"]; variables := None |}
      else {| secrets := Some []; variables := None |}
  | VariablesR repo env =>
      if eqb repo api && eqb env production
      then {| secrets := None;
              variables := Some [(lit "REGION", lit "eu")] |}
      else {| secrets := None; variables := Some [] |}
  | _ => {| secrets := None; variables := None |}
  end.

Definition inventoryRemote : Platform :=
  {| net := fun _ q =>
       Resolves {| status := 200; json := Some (stored (resource q)) |};
     invalidCharacterMessage := lit "Invalid character" |}.

Definition inventoryStart : Sys GlobalSecretsList.State :=
  {| requests := [];
     comp := {| GlobalSecretsList.secretsMap := [];
                GlobalSecretsList.variablesMap := [];
                GlobalSecretsList.loading := false;
                GlobalSecretsList.toasts := [];
                GlobalSecretsList.newSecretsMap := [];
                GlobalSecretsList.newVariablesMap := [] |} |}.

End Scenario.

(* ================================================================== *)
(** * github-api: the API root and the URLs                              *)
(* ================================================================== *)

Module GitHubApi.
Import JS Eff.

Definition slash : codeunit := 47%N.

(** [s.replace(/\/$/, "")]: a final [/] is removed, one at most. *)
Definition stripTrailingSlash (s : jsstring) : jsstring :=
  match rev s with
  | c :: r => if (c =? slash)%N then rev r else s
  | [] => s
  end.

(** [enterpriseUrl] is [process.env.NEXT_PUBLIC_GITHUB_ENTERPRISE_URL]:
    [None] when it is not set; the empty string is falsy. *)
Definition getGitHubApiUrl (enterpriseUrl : option jsstring) : jsstring :=
  match enterpriseUrl with
  | Some u =>
      if negb (falsy u) then stripTrailingSlash u ++ lit "/api/v3"
      else lit "https://api.github.com"
  | None => lit "https://api.github.com"
  end.

(** The URL a [fetch] of the components is given for a resource: the
    template strings of the source, under the API root [base]. *)
Definition url (base organization : jsstring) (r : Resource) : jsstring :=
  match r with
  | EnvironmentR repo env =>
      base ++ lit "/repos/" ++ organization ++ lit "/" ++ repo
      ++ lit "/environments/" ++ env
  | SecretR repo env name =>
      base ++ lit "/repos/" ++ organization ++ lit "/" ++ repo
      ++ lit "/environments/" ++ env ++ lit "/secrets/" ++ name
  | SecretsR repo env =>
      base ++ lit "/repos/" ++ organization ++ lit "/" ++ repo
      ++ lit "/environments/" ++ env ++ lit "/secrets"
  | VariablesR repo env =>
      base ++ lit "/repos/" ++ organization ++ lit "/" ++ repo
      ++ lit "/environments/" ++ env ++ lit "/variables"
  end.

(** The names a resource is built from. *)
Definition segments (r : Resource) : list jsstring :=
  match r with
  | EnvironmentR repo env => [repo; env]
  | SecretR repo env name => [repo; env; name]
  | SecretsR repo env => [repo; env]
  | VariablesR repo env => [repo; env]
  end.

Definition slashFree (s : jsstring) : Prop := ~ In slash s.

(** The parts of a URL after the organization. *)
Definition repoOf (r : Resource) : jsstring :=
  match r with
  | EnvironmentR repo _ | SecretR repo _ _ | SecretsR repo _
  | VariablesR repo _ => repo
  end.

Definition envOf (r : Resource) : jsstring :=
  match r with
  | EnvironmentR _ env | SecretR _ env _ | SecretsR _ env
  | VariablesR _ env => env
  end.

Definition restOf (r : Resource) : jsstring :=
  match r with
  | EnvironmentR _ _ => []
  | SecretR _ _ name => lit "/secrets/" ++ name
  | SecretsR _ _ => lit "/secrets"
  | VariablesR _ _ => lit "/variables"
  end.

End GitHubApi.

(* ================================================================== *)
(** * token-input: handleSubmit                                          *)
(* ================================================================== *)

Module TokenInput.
Import JS.

(** [handleSubmit]: the argument [onSubmit] is called with, [None] when
    it is not called. *)
Definition handleSubmit (token : jsstring) : option jsstring :=
  if negb (falsy (trim token)) then Some (trim token) else None.

End TokenInput.

(* ================================================================== *)
(** * bulk-operations: the selection handlers and the result summary     *)
(* ================================================================== *)

Module BulkDialog.
Import JS Eff BulkOperations.

Record Repository := { name : jsstring; full_name : jsstring }.

(** [l.includes(name)] *)
Definition includes (name : jsstring) (l : list jsstring) : bool :=
  existsb (eqb name) l.

(** The value [handleRepoSelection] gives to [setSelectedRepos];
    environment-manager has the same two handlers. *)
Definition handleRepoSelection (selectedRepos : list jsstring)
    (repoName : jsstring) (checked : bool) : list jsstring :=
  if checked then selectedRepos ++ [repoName]
  else filter (fun r => negb (eqb r repoName)) selectedRepos.

(** The value [handleEnvSelection] gives to [setSelectedEnvironments]. *)
Definition handleEnvSelection (selectedEnvironments : list jsstring)
    (envName : jsstring) (checked : bool) : list jsstring :=
  if checked then selectedEnvironments ++ [envName]
  else filter (fun e => negb (eqb e envName)) selectedEnvironments.

Definition selectAllRepos (repositories : list Repository) : list jsstring :=
  map name repositories.

Definition clearAllRepos : list jsstring := [].

Definition selectAllEnvs : list jsstring := COMMON_ENVIRONMENTS.

Definition clearAllEnvs : list jsstring := [].

(** The two selections of the dialog; both start empty. *)
Record Selections := {
  selectedRepos : list jsstring;
  selectedEnvironments : list jsstring
}.

Definition initialSelections : Selections :=
  {| selectedRepos := []; selectedEnvironments := [] |}.

(** [preset]: [None] for [null] or [undefined]; a field is [None] when
    it is absent. *)
Definition Preset := option (option jsstring * option jsstring).

(** The effect on [isOpen] and [preset]; an empty string is falsy. *)
Definition applyPreset (isOpen : bool) (preset : Preset) (sel : Selections)
  : Selections :=
  match preset with
  | Some (repo, env) =>
      if isOpen then
        {| selectedRepos :=
             match repo with
             | Some r => if falsy r then selectedRepos sel else [r]
             | None => selectedRepos sel
             end;
           selectedEnvironments :=
             match env with
             | Some e => if falsy e then selectedEnvironments sel else [e]
             | None => selectedEnvironments sel
             end |}
      else sel
  | None => sel
  end.

(** What can change the selections: a checkbox, the four buttons,
    [resetForm], the effect. *)
Inductive Action :=
| RepoChecked (repoName : jsstring) (checked : bool)
| EnvChecked (envName : jsstring) (checked : bool)
| SelectAllRepos
| ClearAllRepos
| SelectAllEnvs
| ClearAllEnvs
| ResetForm
| Opened (isOpen : bool) (preset : Preset).

Definition act (repositories : list Repository) (a : Action) (sel : Selections)
  : Selections :=
  match a with
  | RepoChecked repoName checked =>
      {| selectedRepos :=
           handleRepoSelection (selectedRepos sel) repoName checked;
         selectedEnvironments := selectedEnvironments sel |}
  | EnvChecked envName checked =>
      {| selectedRepos := selectedRepos sel;
         selectedEnvironments :=
           handleEnvSelection (selectedEnvironments sel) envName checked |}
  | SelectAllRepos =>
      {| selectedRepos := selectAllRepos repositories;
         selectedEnvironments := selectedEnvironments sel |}
  | ClearAllRepos =>
      {| selectedRepos := clearAllRepos;
         selectedEnvironments := selectedEnvironments sel |}
  | SelectAllEnvs =>
      {| selectedRepos := selectedRepos sel;
         selectedEnvironments := selectAllEnvs |}
  | ClearAllEnvs =>
      {| selectedRepos := selectedRepos sel;
         selectedEnvironments := clearAllEnvs |}
  | ResetForm => {| selectedRepos := []; selectedEnvironments := [] |}
  | Opened isOpen preset => applyPreset isOpen preset sel
  end.

(** A checkbox is given [checked = l.includes(name)], so what it
    reports when clicked is the opposite of [l.includes(name)]. *)
Definition fromCheckbox (sel : Selections) (a : Action) : Prop :=
  match a with
  | RepoChecked repoName checked =>
      checked = negb (includes repoName (selectedRepos sel))
  | EnvChecked envName checked =>
      checked = negb (includes envName (selectedEnvironments sel))
  | _ => True
  end.

(** The selections the dialog can be in. *)
Inductive reachable (repositories : list Repository) : Selections -> Prop :=
| reachable_initial : reachable repositories initialSelections
| reachable_act sel a :
    reachable repositories sel -> fromCheckbox sel a ->
    reachable repositories (act repositories a sel).

(** The counts under the results table:
    [results.filter((r) => r.success).length] successful,
    [results.filter((r) => !r.success).length] failed. *)
Definition successfulShown (results : list OperationResult) : nat :=
  length (filter success results).

Definition failedShown (results : list OperationResult) : nat :=
  length (filter (fun r => negb (success r)) results).

(** [results.length > 0 &&]: the table is rendered. *)
Definition tableShown (results : list OperationResult) : bool :=
  0 <? length results.


End BulkDialog.

(* ================================================================== *)
(** * repository-grid: the environments shown                            *)
(* ================================================================== *)

Module RepositoryGrid.
Import JS.

(** An environment as the listing gives it; its protection rules and
    branch policy are not read by the component. *)
Record Environment := { id : N; name : jsstring }.

(** The state [environments]: an object from repository names to
    lists, as its own properties in the order [Object.values] goes
    through them. *)
Definition Environments := list (jsstring * list Environment).

Definition COMMON_ENVIRONMENTS : list jsstring :=
  map lit ["production"; "staging"; "development"; "preview"]%string.

(** The properties every object inherits from [Object.prototype]: for
    these names [environments[repoName]] is not [undefined] although
    the object has no such property of its own. *)
Definition inherited : list jsstring :=
  map lit ["constructor"; "hasOwnProperty"; "isPrototypeOf";
           "propertyIsEnumerable"; "toLocaleString"; "toString"; "valueOf";
           "__proto__"; "__defineGetter__"; "__defineSetter__";
           "__lookupGetter__"; "__lookupSetter__"]%string.

(** [hasEnvironment]: [None] is the [TypeError] of calling [some] on an
    inherited property, which is truthy and no array. *)
Definition hasEnvironment (environments : Environments)
    (repoName envName : jsstring) : option bool :=
  match GlobalSecretsList.get repoName environments with
  | Some repoEnvs =>
      Some (existsb (fun env => eqb (name env) envName) repoEnvs)
  | None =>
      if existsb (eqb repoName) inherited then None
      else Some (existsb (fun env : Environment => eqb (name env) envName) [])
  end.

Definition hasSecretsOrVariables (environments : Environments)
    (repoName envName : jsstring) : option bool :=
  hasEnvironment environments repoName envName.

(** [new Set()] filled with [add]: a value already in is not added. *)
Fixpoint addAll (xs : list jsstring) (set : list jsstring) : list jsstring :=
  match xs with
  | [] => set
  | x :: r => addAll r (if existsb (eqb x) set then set else set ++ [x])
  end.

(** [a < b] on strings: the order of the code units, a proper prefix
    first. *)
Fixpoint ltb (a b : jsstring) : bool :=
  match a, b with
  | _, [] => false
  | [], _ :: _ => true
  | x :: a', y :: b' =>
      if (x <? y)%N then true
      else if (y <? x)%N then false
      else ltb a' b'
  end.

(** [l.sort()] without a comparator, on strings: ascending in the order
    of the code units.  Written as an insertion sort. *)
Fixpoint insert (x : jsstring) (l : list jsstring) : list jsstring :=
  match l with
  | [] => [x]
  | y :: r => if ltb y x then y :: insert x r else x :: l
  end.

Fixpoint sort (l : list jsstring) : list jsstring :=
  match l with
  | [] => []
  | x :: r => insert x (sort r)
  end.

Definition getAllEnvironments (environments : Environments) : list jsstring :=
  let allEnvs :=
    fold_left (fun set envList => addAll (map name envList) set)
              (map snd environments) [] in
  sort allEnvs.

Definition displayEnvironments (environments : Environments)
  : list jsstring :=
  if 0 <? length (getAllEnvironments environments)
  then getAllEnvironments environments
  else COMMON_ENVIRONMENTS.

(** An object holds a key once. *)
Definition wellKeyed (environments : Environments) : Prop :=
  NoDup (map fst environments).

(** Strictly ascending in the order of the code units. *)
Fixpoint ascending (l : list jsstring) : Prop :=
  match l with
  | [] => True
  | x :: r => Forall (fun y => ltb x y = true) r /\ ascending r
  end.

End RepositoryGrid.

(* ================================================================== *)
(** * global-secrets-list: what a scan finds                             *)
(* ================================================================== *)

Module ScanSpec.
Import JS Eff GlobalSecretsList.

(** A remote whose answers do not change while the scan runs. *)
Definition stable (pf : Platform) : Prop :=
  forall h q, net pf h q = net pf [] q.

(** The listing read off the outcome of a [GET]: there is one when the
    promise resolves with a 2xx status and a body that parses. *)
Definition answerOf (o : FetchOutcome) : option Listing :=
  match o with
  | Resolves resp => if ok resp then json resp else None
  | Rejects _ => None
  end.

Definition secretsOf (o : FetchOutcome) : list jsstring :=
  match answerOf o with Some l => orEmpty (secrets l) | None => [] end.

Definition variablesOf (o : FetchOutcome) : list (jsstring * jsstring) :=
  match answerOf o with Some l => orEmpty (variables l) | None => [] end.

Definition listSecrets (loc : Location) : Request :=
  {| method := GET; resource := SecretsR (repository loc) (environment loc);
     body := NoBody |}.

Definition listVariables (loc : Location) : Request :=
  {| method := GET; resource := VariablesR (repository loc) (environment loc);
     body := NoBody |}.

(** The secret names and the variables the remote lists at a
    location. *)
Definition secretNamesAt (pf : Platform) (loc : Location) : list jsstring :=
  secretsOf (net pf [] (listSecrets loc)).

Definition variablesAt (pf : Platform) (loc : Location)
  : list (jsstring * jsstring) :=
  variablesOf (net pf [] (listVariables loc)).

Definition holdsSecret (pf : Platform) (n : jsstring) (loc : Location) : bool :=
  existsb (eqb n) (secretNamesAt pf loc).

Definition holdsVariable (pf : Platform) (n : jsstring) (loc : Location)
  : bool :=
  existsb (fun v => eqb (fst v) n) (variablesAt pf loc).

(** The location, once for each time the remote lists the secret [n]
    there. *)
Definition sightings (pf : Platform) (n : jsstring) (loc : Location)
  : list Location :=
  map (fun _ => loc) (filter (fun m => eqb m n) (secretNamesAt pf loc)).

(** The values the remote lists for the variable [n] at a location,
    each with the location. *)
Definition valuesAt (pf : Platform) (n : jsstring) (loc : Location)
  : list ValuedLocation :=
  map (fun v => {| place := loc; value := snd v |})
      (filter (fun v => eqb (fst v) n) (variablesAt pf loc)).

(** The entry a scan of the grid should hold for the secret [n]. *)
Definition secretEntry (pf : Platform) (grid : list Location) (n : jsstring)
  : option SecretLocation :=
  match filter (holdsSecret pf n) grid with
  | [] => None
  | found =>
      Some {| entryName := n; locations := found;
              missingIn :=
                filter (fun loc => negb (holdsSecret pf n loc)) grid |}
  end.

(** The entry a scan of the grid should hold for the variable [n]. *)
Definition variableEntry (pf : Platform) (grid : list Location) (n : jsstring)
  : option VariableLocation :=
  match flat_map (valuesAt pf n) grid with
  | [] => None
  | found =>
      Some {| entryName := n; locations := found;
              missingIn :=
                filter (fun loc => negb (holdsVariable pf n loc)) grid |}
  end.

(** The two requests of a pair, in the order they are issued. *)
Definition scanRequests (loc : Location) : list Request :=
  [listSecrets loc; listVariables loc].

(** The component but for the two maps being built. *)
Definition sameButNewMaps (c c' : State) : Prop :=
  secretsMap c' = secretsMap c /\ variablesMap c' = variablesMap c
  /\ loading c' = loading c /\ toasts c' = toasts c.

Section Entries.
Context {L : Type}.

(** What the items of a listing push on the entry of the name [n]. *)
Definition pushes (n : jsstring) (items : list (jsstring * L)) : list L :=
  map snd (filter (fun item => eqb (fst item) n) items).

(** The entry of [n] once [ls] was pushed on it: none before the first
    push. *)
Definition entryOf (n : jsstring) (ls : list L) : option (Entry L) :=
  match ls with
  | [] => None
  | _ => Some {| entryName := n; locations := ls; missingIn := [] |}
  end.

End Entries.

End ScanSpec.

(* ================================================================== *)
(** * environment-manager: the form after a call                         *)
(* ================================================================== *)

Module ManagerForm.
Import JS Eff EnvironmentManager.

(** The four fields of the form are as they were. *)
Definition keptFields (c c' : State) : Prop :=
  secretNameField c' = secretNameField c
  /\ secretValueField c' = secretValueField c
  /\ variableNameField c' = variableNameField c
  /\ variableValueField c' = variableValueField c.

(** The name and the value of the kind written are empty, the other two
    fields are as they were. *)
Definition clearedFields (k : Kind) (c c' : State) : Prop :=
  match k with
  | Secrets =>
      secretNameField c' = [] /\ secretValueField c' = []
      /\ variableNameField c' = variableNameField c
      /\ variableValueField c' = variableValueField c
  | Variables =>
      variableNameField c' = [] /\ variableValueField c' = []
      /\ secretNameField c' = secretNameField c
      /\ secretValueField c' = secretValueField c
  end.

End ManagerForm.

(* ================================================================== *)
(** * environment-manager: updateSecret                                  *)
(* ================================================================== *)

Module ManagerEdit.
Import JS Eff Eff.Notations.

(** What [updateSecret] writes: the React state behind
    [setEditingSecret], [setEditSecretValue] and [setLoading], and the
    toasts. *)
Record State := {
  editingSecret : jsstring;
  editSecretValue : jsstring;
  loading : bool;
  toasts : list EnvironmentManager.Toast
}.

Definition setEditingSecret (v : jsstring) (c : State) : State :=
  {| editingSecret := v; editSecretValue := editSecretValue c;
     loading := loading c; toasts := toasts c |}.

Definition setEditSecretValue (v : jsstring) (c : State) : State :=
  {| editingSecret := editingSecret c; editSecretValue := v;
     loading := loading c; toasts := toasts c |}.

Definition setLoading (b : bool) (c : State) : State :=
  {| editingSecret := editingSecret c; editSecretValue := editSecretValue c;
     loading := b; toasts := toasts c |}.

Definition toast (t : EnvironmentManager.Toast) (c : State) : State :=
  {| editingSecret := editingSecret c; editSecretValue := editSecretValue c;
     loading := loading c; toasts := toasts c ++ [t] |}.

Definition updatedToast (secretName : jsstring) : EnvironmentManager.Toast :=
  {| EnvironmentManager.title := lit "Secret Updated";
     EnvironmentManager.description :=
       lit "Successfully updated " ++ secretName;
     EnvironmentManager.variant := None |}.

Definition updateFailedToast : EnvironmentManager.Toast :=
  {| EnvironmentManager.title := lit "Error";
     EnvironmentManager.description := lit "Failed to update secret";
     EnvironmentManager.variant := Some (lit "destructive") |}.

Section Calls.
Variable pf : Platform.
Variable f : EnvironmentManager.Form.

(** [fetchSecrets()] as [updateSecret] calls it, without [await]: it
    runs up to its first [await]. *)
Definition fetchSecretsCalled : M State unit :=
  modify (setLoading true);;
  fetchDetached
    {| method := GET;
       resource := SecretsR (EnvironmentManager.repository f)
                            (EnvironmentManager.environment f);
       body := NoBody |}.

(** The request of [updateSecret]; [btoa] may throw while the argument
    of [fetch] is built. *)
Definition updateRequest (secretName newValue : jsstring)
  : Completion Request :=
  match btoa newValue with
  | Some encrypted =>
      Returns {| method := PUT;
                 resource := SecretR (EnvironmentManager.repository f)
                                     (EnvironmentManager.environment f)
                                     secretName;
                 body := EncryptedValue encrypted |}
  | None => Throws (ErrorObject (invalidCharacterMessage pf))
  end.

Definition updateSecret (secretName newValue : jsstring) : M State unit :=
  tryCatch
    (request <- liftCompletion (updateRequest secretName newValue);;
     response <- fetch pf request;;
     if ok response then
       modify (toast (updatedToast secretName));;
       modify (setEditingSecret []);;
       modify (setEditSecretValue []);;
       fetchSecretsCalled
     else ret tt)
    (fun _ => (* console.error(...) *) modify (toast updateFailedToast)).

End Calls.

(** The body of a request, read back as the remote would. *)
Definition decoded (q : Request) : option jsstring :=
  match body q with
  | EncryptedValue e => atob e
  | _ => None
  end.

End ManagerEdit.

(* ================================================================== *)
(** * A scenario for the dialog and the grid                             *)
(* ================================================================== *)

Module GridScenario.
Import JS Eff Scenario.

(** An enterprise server, written without a final slash. *)
Definition enterprise : jsstring := lit "https://github.example.com".

Definition dialogRepositories : list BulkDialog.Repository :=
  [ {| BulkDialog.name := api; BulkDialog.full_name := lit "acme/api" |};
    {| BulkDialog.name := web; BulkDialog.full_name := lit "acme/web" |} ].

(** Select All on the repositories, then the box of [production]. *)
Definition dialogSelections : BulkDialog.Selections :=
  BulkDialog.act dialogRepositories (BulkDialog.EnvChecked production true)
    (BulkDialog.act dialogRepositories BulkDialog.SelectAllRepos
       BulkDialog.initialSelections).

(** [api] has [production] and [staging], [web] has [production]. *)
Definition gridEnvironments : RepositoryGrid.Environments :=
  [ (api, [ {| RepositoryGrid.id := 1; RepositoryGrid.name := production |};
            {| RepositoryGrid.id := 2; RepositoryGrid.name := staging |} ]);
    (web, [ {| RepositoryGrid.id := 3;
               RepositoryGrid.name := production |} ]) ].

End GridScenario.

(* ================================================================== *)
(** * Strings: base64 and [trim]                                         *)
(* ================================================================== *)

Example btoa_Man : JS.btoa (JS.lit "Man") = Some (JS.lit "TWFu").
Proof. reflexivity. Qed.

Example btoa_Ma : JS.btoa (JS.lit "Ma") = Some (JS.lit "TWE=").
Proof. reflexivity. Qed.

Example btoa_M : JS.btoa (JS.lit "M") = Some (JS.lit "TQ==").
Proof. reflexivity. Qed.

Example btoa_beyond_latin1 : JS.btoa [1087%N; 97%N] = None.
Proof. reflexivity. Qed.

Example atob_TQ : JS.atob (JS.lit "TQ==") = Some (JS.lit "M").
Proof. reflexivity. Qed.

Example atob_unpadded : JS.atob (JS.lit " TWE") = Some (JS.lit "Ma").
Proof. reflexivity. Qed.

Example atob_invalid : JS.atob (JS.lit "TWFu!") = None.
Proof. reflexivity. Qed.

Example trim_spaces : JS.trim (JS.lit "  a b ") = JS.lit "a b".
Proof. reflexivity. Qed.

Section Base64Facts.
Import JS.

Lemma list_ind3 {A} (P : list A -> Prop) :
  P [] -> (forall a, P [a]) -> (forall a b, P [a; b]) ->
  (forall a b c r, P r -> P (a :: b :: c :: r)) ->
  forall l, P l.
Proof.
  intros H0 H1 H2 H3.
  fix IH 1.
  intros [|a [|b [|c r]]]; [apply H0 | apply H1 | apply H2 | apply H3, IH].
Qed.

Lemma encodeBytes_split bs :
  encodeBytes bs = map encodeSextet (toSextets bs) ++ paddingOf bs.
Proof.
  induction bs as [| a | a b | a b c r IH] using list_ind3; try reflexivity.
  cbn [encodeBytes toSextets paddingOf].
  rewrite IH, map_app, <- app_assoc. reflexivity.
Qed.

Lemma packed_div k r s : (s < k -> (r * k + s) / k = r)%N.
Proof.
  intros H. symmetry. apply (N.div_unique _ _ _ s); lia.
Qed.

Lemma packed_mod k r s : (s < k -> (r * k + s) mod k = s)%N.
Proof.
  intros H. symmetry. apply (N.mod_unique _ _ r); lia.
Qed.

Lemma split_byte (a k : N) :
  (k <> 0 -> a = a / k * k + a mod k /\ a mod k < k)%N.
Proof.
  intros H. split.
  - rewrite (N.div_mod' a k) at 1. lia.
  - now apply N.mod_lt.
Qed.

(** Name the quotient and the remainder of [a] by [k]. *)
Ltac name_divmod a k :=
  let q := fresh "q" in
  let r := fresh "r" in
  destruct (split_byte a k) as [? ?]; [lia|];
  set (q := (a / k)%N) in *; set (r := (a mod k)%N) in *;
  clearbody q r.

Lemma byte_sextets a b c :
  (a <= 255 -> b <= 255 -> c <= 255 ->
   a / 4 < 64 /\ (a mod 4) * 16 + b / 16 < 64
   /\ (b mod 16) * 4 + c / 64 < 64 /\ c mod 64 < 64
   /\ (a mod 4) * 16 < 64 /\ (b mod 16) * 4 < 64)%N.
Proof.
  intros Ha Hb Hc.
  name_divmod a 4%N. name_divmod b 16%N. name_divmod c 64%N.
  lia.
Qed.

Lemma sextets_bytes a b c :
  (a <= 255 -> b <= 255 -> c <= 255 ->
   a / 4 * 4 + ((a mod 4) * 16 + b / 16) / 16 = a /\
   (((a mod 4) * 16 + b / 16) mod 16) * 16
   + ((b mod 16) * 4 + c / 64) / 4 = b /\
   (((b mod 16) * 4 + c / 64) mod 4) * 64 + c mod 64 = c)%N.
Proof.
  intros Ha Hb Hc.
  name_divmod a 4%N. name_divmod b 16%N. name_divmod c 64%N.
  rewrite (packed_div 16), (packed_mod 16), (packed_div 4), (packed_mod 4)
    by lia.
  lia.
Qed.

Lemma sextets_bytes_tail a b :
  (a <= 255 -> b <= 255 ->
   a / 4 * 4 + ((a mod 4) * 16) / 16 = a /\
   (((a mod 4) * 16 + b / 16) mod 16) * 16 + ((b mod 16) * 4) / 4 = b)%N.
Proof.
  intros Ha Hb.
  name_divmod a 4%N. name_divmod b 16%N.
  rewrite (packed_mod 16) by lia.
  rewrite !N.div_mul by lia.
  lia.
Qed.

Lemma sextet_cases (P : N -> bool) :
  forallb P (map N.of_nat (seq 0 64)) = true ->
  forall n, (n < 64)%N -> P n = true.
Proof.
  intros H n Hn. rewrite forallb_forall in H. apply H.
  apply in_map_iff. exists (N.to_nat n). split; [lia|].
  apply in_seq. lia.
Qed.

Lemma decodeChar_encodeSextet n :
  (n < 64)%N -> decodeChar (encodeSextet n) = Some n.
Proof.
  intros Hn.
  pose proof (sextet_cases
    (fun n => match decodeChar (encodeSextet n) with
              | Some m => (m =? n)%N
              | None => false
              end) eq_refl n Hn) as H.
  cbv beta in H. destruct (decodeChar (encodeSextet n)); [|discriminate].
  apply N.eqb_eq in H. now subst.
Qed.

Lemma encodeSextet_plain n :
  (n < 64)%N ->
  isAsciiWhitespace (encodeSextet n) = false /\ encodeSextet n <> padChar.
Proof.
  intros Hn.
  pose proof (sextet_cases
    (fun n => negb (isAsciiWhitespace (encodeSextet n))
              && negb (encodeSextet n =? padChar)%N) eq_refl n Hn) as H.
  cbv beta in H. apply andb_true_iff in H. destruct H as [H1 H2].
  apply negb_true_iff in H1, H2. apply N.eqb_neq in H2. now split.
Qed.

Lemma toSextets_bound bs :
  Forall (fun b => b <= 255)%N bs -> Forall (fun n => n < 64)%N (toSextets bs).
Proof.
  induction bs as [| a | a b | a b c r IH] using list_ind3; intros H.
  - constructor.
  - inversion_clear H. destruct (byte_sextets a 0 0) as (?&?&?&?&?&?); try lia.
    cbn. repeat constructor; assumption.
  - inversion_clear H as [|? ? Ha H']. inversion_clear H' as [|? ? Hb _].
    destruct (byte_sextets a b 0) as (?&?&?&?&?&?); try lia.
    cbn. repeat constructor; assumption.
  - inversion_clear H as [|? ? Ha H']. inversion_clear H' as [|? ? Hb H''].
    inversion_clear H'' as [|? ? Hc Hr].
    destruct (byte_sextets a b c) as (?&?&?&?&?&?); try lia.
    cbn [toSextets]. repeat (apply Forall_cons; [assumption|]). cbn. auto.
Qed.

Lemma decodeSextets_toSextets bs :
  Forall (fun b => b <= 255)%N bs -> decodeSextets (toSextets bs) = bs.
Proof.
  induction bs as [| a | a b | a b c r IH] using list_ind3; intros H.
  - reflexivity.
  - inversion_clear H. destruct (sextets_bytes_tail a 0) as [E _]; try lia.
    cbn. now rewrite E.
  - inversion_clear H as [|? ? Ha H']. inversion_clear H' as [|? ? Hb _].
    destruct (sextets_bytes_tail a b) as [_ E2]; try lia.
    destruct (sextets_bytes a b 0) as [E1 _]; try lia.
    cbn. now rewrite E1, E2.
  - inversion_clear H as [|? ? Ha H']. inversion_clear H' as [|? ? Hb H''].
    inversion_clear H'' as [|? ? Hc Hr].
    destruct (sextets_bytes a b c) as (E1 & E2 & E3); try lia.
    cbn [toSextets app decodeSextets]. rewrite E1, E2, E3, IH by assumption.
    reflexivity.
Qed.

Lemma decodeChars_encoded ss :
  Forall (fun n => n < 64)%N ss -> decodeChars (map encodeSextet ss) = Some ss.
Proof.
  induction 1 as [|n ss Hn _ IH]; [reflexivity|].
  cbn [map decodeChars]. now rewrite decodeChar_encodeSextet, IH.
Qed.

Lemma paddingOf_cases bs :
  paddingOf bs = [] \/ paddingOf bs = [padChar]
  \/ paddingOf bs = [padChar; padChar].
Proof.
  induction bs as [| a | a b | a b c r IH] using list_ind3; cbn; auto.
Qed.

Lemma length_encodeBytes bs : length (encodeBytes bs) mod 4 = 0.
Proof.
  induction bs as [| a | a b | a b c r IH] using list_ind3; try reflexivity.
  cbn [encodeBytes]. rewrite length_app.
  change (length _ + ?n) with (4 + n).
  replace (4 + length (encodeBytes r))
    with (length (encodeBytes r) + 1 * 4) by lia.
  now rewrite Nat.Div0.mod_add.
Qed.

Lemma length_toSextets bs : length (toSextets bs) mod 4 <> 1.
Proof.
  induction bs as [| a | a b | a b c r IH] using list_ind3; try (cbn; lia).
  cbn [toSextets]. rewrite length_app.
  change (length _ + ?n) with (4 + n).
  replace (4 + length (toSextets r))
    with (length (toSextets r) + 1 * 4) by lia.
  now rewrite Nat.Div0.mod_add.
Qed.

Lemma dropPad_snoc l : dropPad (l ++ [padChar]) = l.
Proof.
  unfold dropPad. rewrite rev_app_distr. cbn. apply rev_involutive.
Qed.

Lemma dropPad_plain l : Forall (fun c => c <> padChar) l -> dropPad l = l.
Proof.
  intros H. unfold dropPad. destruct (rev l) as [|c r] eqn:E; [reflexivity|].
  assert (Hc : In c l) by (apply in_rev; rewrite E; now left).
  rewrite Forall_forall in H. apply H in Hc.
  apply N.eqb_neq in Hc. now rewrite Hc.
Qed.

Lemma stripPadding_encodeBytes bs :
  Forall (fun b => b <= 255)%N bs ->
  stripPadding (encodeBytes bs) = map encodeSextet (toSextets bs).
Proof.
  intros H. unfold stripPadding.
  rewrite length_encodeBytes. cbn [Nat.eqb].
  rewrite encodeBytes_split.
  assert (Hplain : Forall (fun c => c <> padChar)
                     (map encodeSextet (toSextets bs))).
  { apply Forall_map. eapply Forall_impl; [|apply toSextets_bound, H].
    intros n Hn. now apply encodeSextet_plain. }
  destruct (paddingOf_cases bs) as [E | [E | E]]; rewrite E.
  - rewrite app_nil_r. now rewrite !(dropPad_plain _ Hplain).
  - now rewrite dropPad_snoc, (dropPad_plain _ Hplain).
  - change [padChar; padChar] with ([padChar] ++ [padChar]).
    rewrite app_assoc. now rewrite !dropPad_snoc.
Qed.

Lemma filter_all {A} (p : A -> bool) l :
  Forall (fun x => p x = true) l -> filter p l = l.
Proof.
  induction 1 as [|x l Hx _ IH]; [reflexivity|].
  cbn. now rewrite Hx, IH.
Qed.

Lemma encodeBytes_no_whitespace bs :
  Forall (fun b => b <= 255)%N bs ->
  filter (fun c => negb (isAsciiWhitespace c)) (encodeBytes bs)
  = encodeBytes bs.
Proof.
  intros H. apply filter_all. rewrite encodeBytes_split.
  apply Forall_app. split.
  - apply Forall_map. eapply Forall_impl; [|apply toSextets_bound, H].
    intros n Hn. cbv beta. apply negb_true_iff. now apply encodeSextet_plain.
  - destruct (paddingOf_cases bs) as [E | [E | E]]; rewrite E;
      repeat constructor.
Qed.

Lemma atob_encodeBytes bs :
  Forall (fun b => b <= 255)%N bs -> atob (encodeBytes bs) = Some bs.
Proof.
  intros H. unfold atob.
  rewrite encodeBytes_no_whitespace, stripPadding_encodeBytes by assumption.
  rewrite length_map.
  destruct (Nat.eqb_spec (length (toSextets bs) mod 4) 1) as [E|_].
  - now apply length_toSextets in E.
  - rewrite decodeChars_encoded by now apply toSextets_bound.
    now rewrite decodeSextets_toSextets.
Qed.

(** Decoding what [btoa] gave gives the string back. *)
Lemma atob_btoa v e : btoa v = Some e -> atob e = Some v.
Proof.
  unfold btoa. destruct (isLatin1 v) eqn:E; [|discriminate].
  unfold isLatin1 in E.
  intros [= <-]. apply atob_encodeBytes.
  apply Forall_forall. intros c Hc. rewrite forallb_forall in E.
  apply E in Hc. now apply N.leb_le.
Qed.

Lemma blank_trimStart s : blank (trimStart s) = blank s.
Proof.
  induction s as [|c r IH]; [reflexivity|].
  cbn. destruct (isWhiteSpace c) eqn:E; cbn; [exact IH|].
  now rewrite E.
Qed.

Lemma blank_rev s : blank (rev s) = blank s.
Proof.
  unfold blank. induction s as [|c r IH]; [reflexivity|].
  cbn. rewrite forallb_app, IH. cbn. rewrite andb_true_r. apply andb_comm.
Qed.

Lemma trimStart_nil s : trimStart s = [] <-> blank s = true.
Proof.
  induction s as [|c r IH]; cbn; [tauto|].
  destruct (isWhiteSpace c); cbn; [exact IH|].
  split; discriminate.
Qed.

(** [!s.trim()] holds exactly of the strings that are empty or white
    space only. *)
Lemma falsy_trim s : falsy (trim s) = blank s.
Proof.
  unfold trim, trimEnd.
  rewrite <- (blank_trimStart s), <- (blank_rev (trimStart s)).
  set (t := rev (trimStart s)).
  destruct (blank t) eqn:E.
  - apply trimStart_nil in E. now rewrite E.
  - destruct (trimStart t) as [|c r] eqn:Et.
    + apply trimStart_nil in Et. congruence.
    + cbn. destruct (rev r ++ [c]) eqn:E'; [|reflexivity].
      now apply app_eq_nil in E' as [_ ?].
Qed.

Lemma eqb_eq a b : JS.eqb a b = true <-> a = b.
Proof. unfold JS.eqb. destruct (jsstring_eq_dec a b); split; congruence. Qed.

End Base64Facts.

(* ================================================================== *)
(** * Loops and lists                                                    *)
(* ================================================================== *)

Section MonadFacts.
Import Eff.
Context {C : Type}.

Lemma forOf_app {A} (l1 l2 : list A) (body : A -> M C unit) s :
  forOf (l1 ++ l2) body s = bind (forOf l1 body) (fun _ => forOf l2 body) s.
Proof.
  revert s. induction l1 as [|x l1 IH]; intros s; [reflexivity|].
  cbn [app forOf]. unfold bind.
  destruct (body x s) as [[[]|e] s1]; [|reflexivity].
  rewrite IH. reflexivity.
Qed.

Lemma forOf_map {A B} (g : A -> B) (l : list A) (body : B -> M C unit) s :
  forOf (map g l) body s = forOf l (fun x => body (g x)) s.
Proof.
  revert s. induction l as [|x l IH]; intros s; [reflexivity|].
  cbn [map forOf]. unfold bind.
  destruct (body (g x) s) as [[[]|e] s1]; [apply IH|reflexivity].
Qed.

(** Two nested loops run the body over the product, row by row. *)
Lemma forOf_nested {A B} (l1 : list A) (l2 : list B)
    (body : A -> B -> M C unit) s :
  forOf l1 (fun x => forOf l2 (fun y => body x y)) s
  = forOf (list_prod l1 l2) (fun t => body (fst t) (snd t)) s.
Proof.
  revert s. induction l1 as [|x l1 IH]; intros s; [reflexivity|].
  cbn [forOf list_prod]. rewrite forOf_app. unfold bind.
  rewrite forOf_map. cbn [fst snd].
  destruct (forOf l2 (fun y => body x y) s) as [[[]|e] s1];
    [apply IH|reflexivity].
Qed.

End MonadFacts.

Section ListFacts.
Context {A B : Type}.

Lemma NoDup_list_prod (l1 : list A) (l2 : list B) :
  NoDup l1 -> NoDup l2 -> NoDup (list_prod l1 l2).
Proof.
  intros H1 H2. induction H1 as [|x l1 Hx _ IH]; [constructor|].
  cbn [list_prod]. apply NoDup_app.
  - apply NoDup_map_NoDup_ForallPairs; [|assumption].
    intros y y' _ _ [= ->]. reflexivity.
  - exact IH.
  - intros [x' y] Hin Hin'. apply in_map_iff in Hin as (y' & [= <- <-] & _).
    apply in_prod_iff in Hin' as [Hin' _]. contradiction.
Qed.

Lemma nth_error_list_prod (l1 : list A) (l2 : list B) i j x y :
  nth_error l1 i = Some x -> nth_error l2 j = Some y ->
  nth_error (list_prod l1 l2) (i * length l2 + j) = Some (x, y).
Proof.
  revert i. induction l1 as [|a l1 IH]; intros i Hi Hj.
  - destruct i; discriminate.
  - assert (Hlt : j < length l2) by (apply nth_error_Some; congruence).
    cbn [list_prod]. destruct i as [|i].
    + injection Hi as ->. cbn [Nat.mul Nat.add].
      rewrite nth_error_app1 by (rewrite length_map; exact Hlt).
      rewrite nth_error_map, Hj. reflexivity.
    + cbn [nth_error] in Hi.
      rewrite nth_error_app2 by (rewrite length_map; lia).
      rewrite length_map.
      replace (S i * length l2 + j - length l2)
        with (i * length l2 + j) by lia.
      now apply IH.
Qed.

Lemma Forall2_nth_error (P : A -> B -> Prop) l1 l2 n x :
  Forall2 P l1 l2 -> nth_error l1 n = Some x ->
  exists y, nth_error l2 n = Some y /\ P x y.
Proof.
  intros H. revert n. induction H as [|a b l1 l2 Hab _ IH]; intros n Hn.
  - destruct n; discriminate.
  - destruct n as [|n]; cbn in *.
    + injection Hn as <-. eauto.
    + now apply IH.
Qed.

Lemma nth_error_map_Some (g : A -> B) l n y :
  nth_error (map g l) n = Some y ->
  exists x, nth_error l n = Some x /\ g x = y.
Proof.
  rewrite nth_error_map. destruct (nth_error l n) as [x|]; [|discriminate].
  intros [= <-]. eauto.
Qed.

Lemma last_cons_default (a d : A) l : last (a :: l) d = last l a.
Proof.
  revert a d. induction l as [|b l IH]; intros a d; [reflexivity|].
  change (last (a :: b :: l) d) with (last (b :: l) d).
  now rewrite !IH.
Qed.

Lemma length_eqb_0 (l : list A) : (length l =? 0) = true <-> l = [].
Proof. destruct l; cbn; split; congruence. Qed.

End ListFacts.

Section ProgressFacts.
Import BulkOperations.
Local Open Scope Q_scope.




End ProgressFacts.

(* ================================================================== *)
(** * bulk-operations                                                   *)
(* ================================================================== *)

Section BulkFacts.
Import JS Eff BulkOperations BulkSpec.
Variable pf : Platform.
Variable f : Form.

(** Every case of [createEnvironmentIfNeeded], by what the remote
    answers. *)
Lemma createEnvironmentIfNeeded_cases repo env (s : Sys State) :
  let after1 := requests s ++ [envCheck repo env] in
  let after2 := after1 ++ [envCreate repo env] in
  match net pf (requests s) (envCheck repo env) with
  | Rejects _ =>
      createEnvironmentIfNeeded pf f repo env s
      = (Returns false, {| requests := after1; comp := comp s |})
  | Resolves checkResponse =>
      if (status checkResponse =? 404)%N then
        match net pf after1 (envCreate repo env) with
        | Rejects _ =>
            createEnvironmentIfNeeded pf f repo env s
            = (Returns false, {| requests := after2; comp := comp s |})
        | Resolves createResponse =>
            createEnvironmentIfNeeded pf f repo env s
            = (Returns (ok createResponse),
               {| requests := after2;
                  comp := if ok createResponse && onEnvironmentCreated f
                          then callOnEnvironmentCreated (comp s)
                          else comp s |})
        end
      else
        createEnvironmentIfNeeded pf f repo env s
        = (Returns (ok checkResponse),
           {| requests := after1; comp := comp s |})
  end.
Proof.
  cbv zeta. unfold createEnvironmentIfNeeded, tryCatch, bind, fetch.
  fold (envCheck repo env). fold (envCreate repo env).
  destruct (net pf (requests s) (envCheck repo env)) as [r|e];
    [|reflexivity].
  destruct (status r =? 404)%N; [|reflexivity].
  cbn [requests comp].
  destruct (net pf _ (envCreate repo env)) as [r'|e']; [|reflexivity].
  destruct (ok r' && onEnvironmentCreated f); reflexivity.
Qed.

(** It never throws, starts with the existence check, and at most adds
    the create call. *)
Lemma createEnvironmentIfNeeded_total repo env (s : Sys State) :
  exists b d c',
    createEnvironmentIfNeeded pf f repo env s
    = (Returns b, {| requests := requests s ++ envCheck repo env :: d;
                     comp := c' |})
    /\ (d = [] \/ d = [envCreate repo env])
    /\ onlyCallbackCalled (comp s) c'.
Proof.
  pose proof (createEnvironmentIfNeeded_cases repo env s) as H.
  cbv zeta in H. rewrite <- app_assoc in H. cbn [app] in H.
  unfold onlyCallbackCalled.
  destruct (net pf (requests s) (envCheck repo env)) as [r|e].
  - destruct (status r =? 404)%N.
    + destruct (net pf _ (envCreate repo env)) as [r'|e'].
      * rewrite H. do 3 eexists. split; [reflexivity|]. split; [now right|].
        destruct (ok r' && onEnvironmentCreated f); auto.
      * rewrite H. do 3 eexists. split; [reflexivity|]. auto.
    + rewrite H. do 3 eexists. split; [reflexivity|]. auto.
  - rewrite H. do 3 eexists. split; [reflexivity|]. auto.
Qed.

Lemma bulkTarget_env_failure write total repo env s s1 :
  createEnvironmentIfNeeded pf f repo env s = (Returns false, s1) ->
  bulkTarget pf f write total repo env s
  = (Returns tt,
     {| requests := requests s1;
        comp := setProgress
                  (progressOf (S (completedOperations (comp s1))) total)
                  (incrCompleted
                     (pushResult (environmentFailure repo env) (comp s1)))
     |}).
Proof.
  intros H. unfold bulkTarget, bind at 1, tryCatch, bind at 1.
  rewrite H. reflexivity.
Qed.

Lemma stepped_after_callback total t r c c1 c' :
  onlyCallbackCalled c c1 -> stepped total t r c1 c' -> stepped total t r c c'.
Proof. intros [-> | ->] H; exact H. Qed.

(** The loop body never throws: it adds one result for its target,
    counts it, reports the progress, and issues the existence check
    first. *)
Lemma bulkTarget_spec write total repo env (s : Sys State) :
  exists r b s',
    bulkTarget pf f write total repo env s = (Returns tt, s')
    /\ requests s' = requests s ++ b
    /\ block write (repo, env) b
    /\ stepped total (repo, env) r (comp s) (comp s').
Proof.
  destruct (createEnvironmentIfNeeded_total repo env s)
    as (envCreated & d & c1 & Henv & Hd & Hc1).
  assert (Hd' : Forall (laterRequest write (repo, env)) d).
  { destruct Hd as [-> | ->]; repeat constructor. }
  destruct envCreated.
  - unfold bulkTarget, bind at 1, tryCatch, bind at 1. rewrite Henv.
    cbn [negb]. unfold bind at 1, liftCompletion.
    destruct (write repo env) as [q|e] eqn:Hw.
    + assert (Hq : block write (repo, env) (envCheck repo env :: d ++ [q])).
      { exists (d ++ [q]). split; [reflexivity|].
        apply Forall_app. split; [assumption|].
        constructor; [now right|constructor]. }
      unfold bind at 1, fetch. cbn [requests comp].
      destruct (net pf _ q) as [resp|e]; cbn;
        (do 3 eexists; split; [reflexivity|]; cbn [requests comp];
         split; [rewrite <- app_assoc; reflexivity|];
         split; [exact Hq|];
         apply (stepped_after_callback _ _ _ _ c1); [assumption|];
         repeat split; try reflexivity;
         unfold explained; cbn; try destruct (ok resp); easy).
    + cbn. do 3 eexists. split; [reflexivity|]. cbn [requests comp].
      split; [reflexivity|].
      split; [exists d; now split|].
      apply (stepped_after_callback _ _ _ _ c1); [assumption|].
      repeat split; try reflexivity. easy.
  - rewrite (bulkTarget_env_failure _ _ _ _ _ _ Henv). cbn [requests comp].
    do 3 eexists. split; [reflexivity|]. cbn [requests comp].
    split; [reflexivity|].
    split; [exists d; now split|].
    apply (stepped_after_callback _ _ _ _ c1); [assumption|].
    repeat split; try reflexivity. easy.
Qed.

Lemma bulk_targets_spec write total ts (s : Sys State) :
  exists rs bs s',
    forOf ts (fun t => bulkTarget pf f write total (fst t) (snd t)) s
    = (Returns tt, s')
    /\ requests s' = requests s ++ concat bs
    /\ Forall2 (block write) ts bs
    /\ ran total ts rs (comp s) (comp s').
Proof.
  revert s. induction ts as [|[repo env] ts IH]; intros s.
  - exists [], [], s. unfold ran, progressSteps. cbn.
    rewrite !app_nil_r, Nat.add_0_r. repeat split; constructor.
  - destruct (bulkTarget_spec write total repo env s)
      as (r & b & s1 & Hrun & Hreq & Hb & Hstep).
    destruct (IH s1) as (rs & bs & s' & Hrun' & Hreq' & Hbs & Hran).
    exists (r :: rs), (b :: bs), s'.
    cbn [forOf fst snd]. unfold bind. rewrite Hrun.
    split; [exact Hrun'|].
    split; [rewrite Hreq', Hreq, <- app_assoc; reflexivity|].
    split; [constructor; assumption|].
    destruct Hstep as (S1 & S2 & Sx & S3 & S4 & S5 & S6 & S7 & S8).
    destruct Hran as (R1 & R2 & Rx & R3 & R4 & R5 & R6 & R7 & R8).
    unfold ran. cbn [length map]. unfold progressSteps in *.
    cbn [seq map].
    repeat split.
    + rewrite R1, S1, <- app_assoc. reflexivity.
    + now rewrite S2, R2.
    + now constructor.
    + rewrite R3, S3. lia.
    + rewrite R4, S5, S3, <- app_assoc. reflexivity.
    + rewrite R5, S3, S4. symmetry. apply last_cons_default.
    + congruence.
    + congruence.
    + congruence.
Qed.

Lemma bulkRun_spec write title what (s : Sys State) :
  exists rs bs s',
    bulkRun pf f write title what s = (Returns tt, s')
    /\ requests s' = requests s ++ concat bs
    /\ Forall2 (block write) (targets f) bs
    /\ map target rs = (targets f)
    /\ Forall explained rs
    /\ results (comp s') = rs
    /\ isProcessing (comp s') = false
    /\ toasts (comp s')
       = toasts (comp s)
         ++ [{| title := title;
                description :=
                  locationsText what (successCountOf rs) (totalOperations f) |}]
    /\ progressLog (comp s')
       = progressLog (comp s)
         ++ 0%Q :: progressSteps (totalOperations f) 1 (totalOperations f)
    /\ progress (comp s')
       = last (progressSteps (totalOperations f) 1 (totalOperations f)) 0%Q.
Proof.
  unfold bulkRun. fold (totalOperations f).
  unfold bind at 1 2 3 4 5, modify at 1 2 3 4. cbn [requests comp].
  unfold bulkLoop. rewrite forOf_nested. fold (targets f).
  match goal with
  | |- context [forOf (targets f) _ ?s0] =>
      destruct (bulk_targets_spec write (totalOperations f) (targets f) s0)
        as (rs & bs & s1 & Hrun & Hreq & Hbs & Hran)
  end.
  rewrite Hrun. cbn [requests comp] in Hreq, Hran.
  destruct Hran as (R1 & R2 & Rx & R3 & R4 & R5 & R6 & R7 & R8).
  cbn in R1, R3, R4, R5, R8.
  exists rs, bs. eexists. split; [reflexivity|].
  cbn. rewrite R1, R8, R4, R5.
  unfold targets in *. rewrite length_prod. fold (totalOperations f).
  rewrite <- app_assoc.
  repeat split; assumption || reflexivity.
Qed.

Lemma guard_accepted k :
  accepted f k ->
  falsy (trim (nameOf f k)) || falsy (trim (valueOf f k))
  || (length (selectedRepos f) =? 0)
  || (length (selectedEnvironments f) =? 0) = false.
Proof.
  intros (Hn & Hv & Hr & He). rewrite !falsy_trim, Hn, Hv. cbn.
  apply orb_false_iff. split; apply not_true_is_false;
    rewrite length_eqb_0; assumption.
Qed.

Lemma guard_rejected k :
  rejected f k ->
  falsy (trim (nameOf f k)) || falsy (trim (valueOf f k))
  || (length (selectedRepos f) =? 0)
  || (length (selectedEnvironments f) =? 0) = true.
Proof.
  rewrite !falsy_trim. intros [H | [H | [H | H]]].
  - now rewrite H.
  - rewrite H. now rewrite orb_true_r.
  - apply length_eqb_0 in H. rewrite H. now rewrite orb_true_r.
  - apply length_eqb_0 in H. rewrite H. now rewrite orb_true_r.
Qed.

Lemma bulkCreate_rejected k s :
  rejected f k -> bulkCreate pf f k s = (Returns tt, s).
Proof.
  intros H. apply guard_rejected in H.
  destruct k; cbn [bulkCreate nameOf valueOf] in *;
    unfold bulkCreateSecrets, bulkCreateVariables; rewrite H; reflexivity.
Qed.

Lemma bulkCreate_accepted k (s : Sys State) :
  accepted f k ->
  exists rs bs s',
    bulkCreate pf f k s = (Returns tt, s')
    /\ requests s' = requests s ++ concat bs
    /\ Forall2 (block (writeOf pf f k)) (targets f) bs
    /\ map target rs = (targets f)
    /\ Forall explained rs
    /\ results (comp s') = rs
    /\ isProcessing (comp s') = false
    /\ toasts (comp s') = toasts (comp s) ++ [reportOf f k (successCountOf rs)]
    /\ progressLog (comp s')
       = progressLog (comp s)
         ++ 0%Q :: progressSteps (totalOperations f) 1 (totalOperations f)
    /\ progress (comp s')
       = last (progressSteps (totalOperations f) 1 (totalOperations f)) 0%Q.
Proof.
  intros H. apply guard_accepted in H.
  destruct k; cbn [bulkCreate nameOf valueOf writeOf reportOf] in *.
  - destruct (bulkRun_spec (secretWrite pf f)
                (lit "Bulk Secret Creation Complete") "secret" s)
      as (rs & bs & s' & Hrun & Hrest).
    exists rs, bs, s'. split; [|exact Hrest].
    unfold bulkCreateSecrets. rewrite H. exact Hrun.
  - destruct (bulkRun_spec (variableWrite f)
                (lit "Bulk Variable Creation Complete") "variable" s)
      as (rs & bs & s' & Hrun & Hrest).
    exists rs, bs, s'. split; [|exact Hrest].
    unfold bulkCreateVariables. rewrite H. exact Hrun.
Qed.


Lemma totalOperations_positive k : accepted f k -> 0 < (totalOperations f).
Proof.
  intros (_ & _ & Hr & He). unfold totalOperations.
  destruct (selectedRepos f); [contradiction|].
  destruct (selectedEnvironments f); [contradiction|]. cbn. lia.
Qed.

(** C1.  For non-empty selections of repositories R and environments E
    without repetition, a run of [bulkCreateSecrets] or
    [bulkCreateVariables] that passes the guard leaves exactly |R| x |E|
    results: their targets have no repetition, and a pair is the target
    of a result exactly when it is in the product of R and E.  This
    holds for every remote, so whatever number of targets fail. *)
Theorem bulk_results_cover_product k (s : Sys State) :
  accepted f k ->
  NoDup (selectedRepos f) -> NoDup (selectedEnvironments f) ->
  let rs := results (comp (snd (bulkCreate pf f k s))) in
  length rs = length (selectedRepos f) * length (selectedEnvironments f)
  /\ NoDup (map target rs)
  /\ (forall repo env,
        In (repo, env) (map target rs)
        <-> In repo (selectedRepos f) /\ In env (selectedEnvironments f)).
Proof.
  intros Hacc HR HE.
  destruct (bulkCreate_accepted k s Hacc)
    as (rs & bs & s' & Hrun & _ & _ & Hts & _ & Hres & _).
  rewrite Hrun. cbn [snd]. rewrite Hres. cbv zeta. unfold targets in Hts.
  split; [|split].
  - rewrite <- (length_map target), Hts. apply length_prod.
  - rewrite Hts. now apply NoDup_list_prod.
  - intros repo env. rewrite Hts. apply in_prod_iff.
Qed.


(** C6.  Results are recorded in the order of the loops: the result at
    index i * |E| + j is the one of (R[i], E[j]).  The requests go out
    in the same order: they are the blocks of the targets of the
    product, one after the other, and the block at that index starts
    with the existence check of (R[i], E[j]). *)
Theorem bulk_results_in_loop_order k (s : Sys State) i j repo env :
  accepted f k ->
  nth_error (selectedRepos f) i = Some repo ->
  nth_error (selectedEnvironments f) j = Some env ->
  let s' := snd (bulkCreate pf f k s) in
  let n := i * length (selectedEnvironments f) + j in
  (exists r, nth_error (results (comp s')) n = Some r
             /\ BulkOperations.repo r = repo /\ environment r = env)
  /\ (exists bs b,
        requests s' = requests s ++ concat bs
        /\ Forall2 (block (writeOf pf f k))
             (list_prod (selectedRepos f) (selectedEnvironments f)) bs
        /\ nth_error bs n = Some b
        /\ hd_error b = Some (envCheck repo env)).
Proof.
  intros Hacc Hi Hj.
  destruct (bulkCreate_accepted k s Hacc)
    as (rs & bs & s' & Hrun & Hreq & Hbs & Hts & _ & Hres & _).
  rewrite Hrun. cbn [snd]. cbv zeta.
  pose proof (nth_error_list_prod _ _ _ _ _ _ Hi Hj) as Hn.
  unfold targets in *. split.
  - rewrite Hres. rewrite <- Hts in Hn.
    apply nth_error_map_Some in Hn as (r & Hr & Ht).
    exists r. split; [assumption|]. now injection Ht.
  - destruct (Forall2_nth_error _ _ _ _ _ Hbs Hn) as (b & Hb & d & -> & _).
    exists bs. eexists. repeat split; eassumption || reflexivity.
Qed.


(** C9 (amended).  When the name or the value is empty or
    white space only, or no repository or no environment is selected,
    the call returns at once: it returns normally, no request is
    issued, and the state is left as it was (no toast, no result, no
    progress, no error). *)
Theorem bulk_guard_returns_silently k (s : Sys State) :
  rejected f k -> bulkCreate pf f k s = (Returns tt, s).
Proof.
  intros H.
  assert (Hguard :
    falsy (trim (nameOf f k)) || falsy (trim (valueOf f k))
    || (length (selectedRepos f) =? 0)
    || (length (selectedEnvironments f) =? 0) = true).
  { rewrite !falsy_trim. destruct H as [H | [H | [H | H]]].
    - now rewrite H.
    - rewrite H. now rewrite orb_true_r.
    - rewrite H. cbn. now rewrite orb_true_r.
    - rewrite H. cbn. now rewrite orb_true_r. }
  destruct k; cbn [bulkCreate nameOf valueOf] in *.
  - unfold bulkCreateSecrets. now rewrite Hguard.
  - unfold bulkCreateVariables. now rewrite Hguard.
Qed.


Lemma bulkCreate_unfold k (s s4 : Sys State) :
  accepted f k ->
  forOf (targets f) (loopBody pf f k) (started s) = (Returns tt, s4) ->
  bulkCreate pf f k s = (Returns tt, finished f k s4).
Proof.
  intros H Hloop. apply guard_accepted in H.
  destruct k; cbn [bulkCreate nameOf valueOf] in *;
    unfold bulkCreateSecrets, bulkCreateVariables; rewrite H;
    unfold bind at 1 2 3 4 5, modify at 1 2 3 4; cbn [requests comp];
    unfold bulkLoop; rewrite forOf_nested;
    fold (targets f); fold (totalOperations f);
    unfold loopBody, started in Hloop; cbn [writeOf] in Hloop;
    rewrite Hloop; reflexivity.
Qed.

(** C3.  When [createEnvironmentIfNeeded] returns false for a target of
    a bulk run, the result recorded at the index of that target is the
    failure with the error "Failed to create/access environment", the
    only requests issued for the target are requests on its environment
    (no write), and the run goes on with the blocks of the targets that
    follow. *)
Theorem environment_failure_skips_write k pre repo env post
    (s s2 : Sys State) :
  accepted f k ->
  list_prod (selectedRepos f) (selectedEnvironments f)
  = pre ++ (repo, env) :: post ->
  let s1 := snd (forOf pre (loopBody pf f k) (started s)) in
  createEnvironmentIfNeeded pf f repo env s1 = (Returns false, s2) ->
  let s' := snd (bulkCreate pf f k s) in
  nth_error (results (comp s')) (length pre)
  = Some (environmentFailure repo env)
  /\ exists d bs,
       requests s' = requests s1 ++ d ++ concat bs
       /\ Forall (fun q => resource q = EnvironmentR repo env) d
       /\ Forall2 (block (writeOf pf f k)) post bs.
Proof.
  intros Hacc Hsplit. cbv zeta.
  destruct (bulk_targets_spec (writeOf pf f k) (totalOperations f) pre
              (started s))
    as (rs1 & bs1 & s1 & Hrun1 & Hreq1 & _ & Hran1).
  fold (loopBody pf f k) in Hrun1. rewrite Hrun1. cbn [snd]. intros Henv.
  pose proof (bulkTarget_env_failure (writeOf pf f k) (totalOperations f)
                _ _ _ _ Henv) as Hstep.
  set (s3 := {| requests := requests s2; comp := _ |}) in Hstep.
  destruct (bulk_targets_spec (writeOf pf f k) (totalOperations f) post s3)
    as (rs3 & bs3 & s4 & Hrun3 & Hreq3 & Hbs3 & Hran3).
  fold (loopBody pf f k) in Hrun3.
  assert (Hloop : forOf (targets f) (loopBody pf f k) (started s)
                  = (Returns tt, s4)).
  { unfold targets. rewrite Hsplit, forOf_app. unfold bind.
    rewrite Hrun1. cbn [forOf]. unfold bind, loopBody at 1. cbn [fst snd].
    rewrite Hstep. exact Hrun3. }
  rewrite (bulkCreate_unfold k s s4 Hacc Hloop). cbn [snd].
  destruct (createEnvironmentIfNeeded_total repo env s1)
    as (b & d & c' & Henv' & Hd & Hc).
  rewrite Henv in Henv'. injection Henv' as _ Hs2.
  destruct Hran1 as (R1 & R2 & _). destruct Hran3 as (T1 & _).
  split.
  - unfold finished. cbn. rewrite T1. subst s3. cbn. rewrite Hs2. cbn.
    replace (operationResults c') with (operationResults (comp s1))
      by (destruct Hc as [-> | ->]; reflexivity).
    rewrite R1. cbn. rewrite <- R2, length_map.
    rewrite <- !app_assoc. rewrite nth_error_app2 by lia.
    now rewrite Nat.sub_diag.
  - exists (envCheck repo env :: d), bs3. split; [|split].
    + unfold finished. cbn [requests]. rewrite Hreq3. subst s3.
      cbn [requests]. rewrite Hs2. cbn [requests].
      now rewrite <- app_assoc.
    + constructor; [reflexivity|]. destruct Hd as [-> | ->]; repeat constructor.
    + exact Hbs3.
Qed.

(** C2.  [createEnvironmentIfNeeded] issues the existence check; on a
    2xx answer it returns true and issues nothing else; on a 404 answer
    it issues exactly one create call and returns true exactly when
    that call is answered with a 2xx status; on any other answer, or
    when the check rejects, it returns false and issues nothing else. *)
Theorem createEnvironmentIfNeeded_outcomes repo env (s : Sys State) :
  let run := createEnvironmentIfNeeded pf f repo env s in
  let checked := requests s ++ [envCheck repo env] in
  let check := net pf (requests s) (envCheck repo env) in
  let create := net pf checked (envCreate repo env) in
  (forall r, check = Resolves r -> ok r = true ->
     fst run = Returns true /\ requests (snd run) = checked)
  /\ (forall r, check = Resolves r -> status r = 404%N ->
        requests (snd run) = checked ++ [envCreate repo env]
        /\ exists b, fst run = Returns b
             /\ (b = true <-> exists c, create = Resolves c /\ ok c = true))
  /\ (forall r, check = Resolves r -> ok r = false -> status r <> 404%N ->
        fst run = Returns false /\ requests (snd run) = checked)
  /\ (forall e, check = Rejects e ->
        fst run = Returns false /\ requests (snd run) = checked).
Proof.
  cbv zeta. pose proof (createEnvironmentIfNeeded_cases repo env s) as H.
  cbv zeta in H.
  destruct (net pf (requests s) (envCheck repo env)) as [r|e].
  - destruct (N.eqb_spec (status r) 404) as [E|E].
    + assert (Hok : ok r = false) by (unfold ok; now rewrite E).
      split; [|split; [|split]].
      * intros r' [= <-] Hr. congruence.
      * intros r' [= <-] _.
        destruct (net pf _ (envCreate repo env)) as [c|e]; rewrite H; cbn.
        -- split; [reflexivity|].
           exists (ok c). split; [reflexivity|]. split.
           ++ intros Hc. now exists c.
           ++ intros (c' & [= <-] & Hc). exact Hc.
        -- split; [reflexivity|].
           exists false. split; [reflexivity|]. split; [discriminate|].
           intros (c' & Hc & _). discriminate.
      * intros r' [= <-] _ Hne. contradiction.
      * discriminate.
    + rewrite H. cbn. split; [|split; [|split]].
      * intros r' [= <-] Hr. now rewrite Hr.
      * intros r' [= <-]. contradiction.
      * intros r' [= <-] Hr _. now rewrite Hr.
      * discriminate.
  - rewrite H. cbn. split; [|split; [|split]]; try discriminate.
    intros e' _. now split.
Qed.

End BulkFacts.

(* ================================================================== *)
(** * environment-manager                                               *)
(* ================================================================== *)

Section ManagerFacts.
Import JS Eff EnvironmentManager ManagerSpec.
Variable pf : Platform.
Variable f : Form.

Lemma sameButCount_refl c : sameButCount c c.
Proof. repeat split. Qed.

Lemma sameButCount_trans c1 c2 c3 :
  sameButCount c1 c2 -> sameButCount c2 c3 -> sameButCount c1 c3.
Proof. unfold sameButCount. intuition congruence. Qed.

(** The loop sends the writes of the (targets f) in turn and stops at the
    first one that throws. *)
Lemma write_targets_spec k ts (s : Sys State) :
  exists out s' n qs,
    forOf ts (loopBody pf f k) s = (out, s')
    /\ requests s' = requests s ++ qs
    /\ n <= length ts
    /\ Forall2 (written pf f k) (firstn n ts) qs
    /\ sameButCount (comp s) (comp s')
    /\ (out = Returns tt ->
        n = length ts
        /\ successCount (comp s')
           = successCount (comp s) + okCount pf (requests s) qs).
Proof.
  revert s. induction ts as [|[repo env] ts IH]; intros s.
  - exists (Returns tt), s, 0, []. cbn. rewrite app_nil_r.
    repeat split; try constructor. lia.
  - cbn [forOf]. unfold bind, loopBody at 1, writeTarget, bind at 1,
      liftCompletion. cbn [fst snd].
    destruct (writeOf pf f k repo env) as [q|e] eqn:Hw.
    + unfold bind at 1, fetch. cbn [requests comp].
      destruct (net pf (requests s) q) as [resp|e] eqn:Hnet.
      * destruct (ok resp) eqn:Hok; cbn;
          match goal with
          | |- context [forOf ts _ ?s1] =>
              destruct (IH s1) as (out & s' & n & qs & Hrun & Hreq & Hn & Hqs
                                   & Hsame & Hdone)
          end;
          cbn [requests comp] in *;
          (exists out, s', (S n), (q :: qs);
           split; [exact Hrun|];
           split; [rewrite Hreq, <- app_assoc; reflexivity|];
           split; [cbn; lia|];
           split; [cbn [firstn]; constructor; [exact Hw | exact Hqs]|];
           split; [eapply sameButCount_trans; [|exact Hsame]; repeat split|];
           intros Hout; destruct (Hdone Hout) as [-> Hcount];
           split; [reflexivity|]; rewrite Hcount; cbn [okCount];
           rewrite Hnet, Hok; cbn; lia).
      * exists (Throws e), {| requests := requests s ++ [q]; comp := comp s |},
          1, [q].
        split; [reflexivity|]. cbn [requests comp firstn].
        split; [reflexivity|]. split; [cbn; lia|].
        split; [repeat constructor; exact Hw|].
        split; [apply sameButCount_refl|]. discriminate.
    + exists (Throws e), s, 0, []. cbn. rewrite app_nil_r.
      repeat split; try constructor; try lia; discriminate.
Qed.





Lemma writeLoop_targets k (s : Sys State) :
  writeLoop pf f (writeOf pf f k) s = forOf (targets f) (loopBody pf f k) s.
Proof. unfold writeLoop. now rewrite forOf_nested. Qed.

(** How the call ends, by how the loop ended. *)
Lemma create_after_loop k (s s2 : Sys State) out :
  guard f k = false ->
  forOf (targets f) (loopBody pf f k) (entered s) = (out, s2) ->
  exists s',
    create pf f k s = (Returns tt, s')
    /\ match out with
       | Returns _ =>
           requests s' = requests s2 ++ [refreshOf f k]
           /\ toasts (comp s')
              = toasts (comp s2) ++ [reportOf f k (successCount (comp s2))]
       | Throws _ =>
           requests s' = requests s2
           /\ toasts (comp s') = toasts (comp s2) ++ [failureOf k]
       end.
Proof.
  unfold guard. intros Hg Hloop. rewrite <- writeLoop_targets in Hloop.
  unfold entered in Hloop.
  destruct k; cbn [create nameOf valueOf writeOf] in *;
    unfold createSecret, createVariable; rewrite Hg;
    unfold bind at 1, modify at 1, tryFinally, tryCatch,
      bind at 1, modify at 1; cbn [requests comp];
    unfold bind at 1; rewrite Hloop;
    destruct out as [[]|e]; cbn; eexists; (split; [reflexivity|]);
    cbn; split; reflexivity.
Qed.


End ManagerFacts.

(* ================================================================== *)
(** * global-secrets-list                                               *)
(* ================================================================== *)

Section KeyFacts.
Import JS GlobalSecretsList InventorySpec.

Lemma split_at_last {A} (c : A) r1 r2 e1 e2 :
  ~ In c e1 -> ~ In c e2 ->
  r1 ++ c :: e1 = r2 ++ c :: e2 -> r1 = r2 /\ e1 = e2.
Proof.
  intros H1 H2. revert r2. induction r1 as [|a r1 IH]; intros [|b r2] E;
    cbn in E.
  - injection E as E. now split.
  - injection E as _ E. exfalso. apply H1. rewrite E.
    apply in_or_app. right. now left.
  - injection E as _ E. exfalso. apply H2. rewrite <- E.
    apply in_or_app. right. now left.
  - injection E as -> E. apply IH in E as [-> ->]. now split.
Qed.

Lemma common_no_colon env : In env COMMON_ENVIRONMENTS -> ~ In colon env.
Proof.
  intros H Hc.
  assert (E : forallb (fun e => negb (existsb (N.eqb colon) e))
                COMMON_ENVIRONMENTS = true) by reflexivity.
  rewrite forallb_forall in E. apply E in H. apply negb_true_iff in H.
  assert (existsb (N.eqb colon) env = true); [|congruence].
  apply existsb_exists. exists colon. split; [assumption|apply N.eqb_refl].
Qed.

(** On locations of the fixed environments the key tells the location. *)
Lemma key_injective l1 l2 :
  common l1 -> common l2 -> key l1 = key l2 -> l1 = l2.
Proof.
  intros H1 H2 E. apply common_no_colon in H1, H2.
  unfold key in E. change (lit ":") with [colon] in E. cbn [app] in E.
  apply split_at_last in E as [Er Ee]; try assumption.
  destruct l1, l2. cbn in *. congruence.
Qed.
End KeyFacts.

Section MapFacts.
Import JS GlobalSecretsList InventorySpec.
Context {V : Type}.


End MapFacts.

Section EntryFacts.
Import JS GlobalSecretsList InventorySpec.
Context {L : Type}.
Variable whereIs : L -> Location.

Lemma tidy_weaken seen t m :
  tidy whereIs seen m -> tidy whereIs (seen ++ [t]) m.
Proof.
  intros H k e Hin. destruct (H k e Hin) as [Hi Hn]. split; [|exact Hn].
  intros x Hx. apply in_or_app. left. now apply Hi.
Qed.




Lemma existsb_eqb_key x ks :
  existsb (JS.eqb x) ks = true <-> In x ks.
Proof.
  rewrite existsb_exists. split.
  - intros (y & Hy & E). apply eqb_eq in E. now subst.
  - intros H. exists x. split; [exact H | now apply eqb_eq].
Qed.

End EntryFacts.

Section ScanFacts.
Import JS Eff GlobalSecretsList InventorySpec.
Variable pf : Platform.
Variable p : Props.

Hypothesis distinct : listingsDistinct pf.






Lemma allLocations_targets :
  allLocations p
  = map locationOf (list_prod (repositories p) COMMON_ENVIRONMENTS).
Proof.
  unfold allLocations. induction (repositories p) as [|r rs IH];
    [reflexivity|].
  cbn [flat_map list_prod]. now rewrite map_app, map_map, IH.
Qed.

Lemma allLocations_common : Forall common (allLocations p).
Proof.
  rewrite allLocations_targets. apply Forall_map, Forall_forall.
  intros [r e] H. apply in_prod_iff in H as [_ H]. exact H.
Qed.




End ScanFacts.


(* ================================================================== *)
(** * The secret value on the wire                                       *)
(* ================================================================== *)

Section SecretValue.
Import JS Eff.
Variable pf : Platform.





Lemma accepted_or_rejected (f : BulkOperations.Form) k :
  BulkSpec.accepted f k \/ BulkSpec.rejected f k.
Proof.
  unfold BulkSpec.accepted, BulkSpec.rejected.
  destruct (blank (BulkSpec.nameOf f k)); [auto|].
  destruct (blank (BulkSpec.valueOf f k)); [auto|].
  destruct (BulkOperations.selectedRepos f); [auto|].
  destruct (BulkOperations.selectedEnvironments f); [auto|].
  left. repeat split; discriminate.
Qed.

(** The bulk entry points never throw, whatever the form. *)
Lemma bulkCreate_returns (f : BulkOperations.Form) k s :
  exists s', BulkSpec.bulkCreate pf f k s = (Returns tt, s').
Proof.
  destruct (accepted_or_rejected f k) as [H | H].
  - destruct (bulkCreate_accepted pf f k s H) as (rs & bs & s' & Hrun & _).
    now exists s'.
  - exists s. now apply bulkCreate_rejected.
Qed.


End SecretValue.

(* ================================================================== *)
(** * The scenario, run                                                  *)
(* ================================================================== *)

Section ScenarioRuns.
Import JS Eff Scenario.

(** With [staging] missing everywhere and its creation refused, the
    run over two repositories and two environments writes the secret to
    the two [production] targets and records the two failures. *)
Example staging_refused_results :
  BulkOperations.results
    (comp (snd (BulkOperations.bulkCreateSecrets remoteStagingRefused
                  bulkForm bulkStart)))
  = [ {| BulkOperations.repo := api;
         BulkOperations.environment := production;
         BulkOperations.success := true;
         BulkOperations.error := None |};
      BulkSpec.environmentFailure api staging;
      {| BulkOperations.repo := web;
         BulkOperations.environment := production;
         BulkOperations.success := true;
         BulkOperations.error := None |};
      BulkSpec.environmentFailure web staging ].
Proof. vm_compute. reflexivity. Qed.

Example staging_refused_requests :
  requests (snd (BulkOperations.bulkCreateSecrets remoteStagingRefused
                   bulkForm bulkStart))
  = [ BulkSpec.envCheck api production;
      {| method := PUT; resource := SecretR api production (lit "TOKEN");
         body := EncryptedValue (lit "czNjcmV0") |};
      BulkSpec.envCheck api staging;
      BulkSpec.envCreate api staging;
      BulkSpec.envCheck web production;
      {| method := PUT; resource := SecretR web production (lit "TOKEN");
         body := EncryptedValue (lit "czNjcmV0") |};
      BulkSpec.envCheck web staging;
      BulkSpec.envCreate web staging ].
Proof. vm_compute. reflexivity. Qed.

Example staging_refused_toast :
  BulkOperations.toasts
    (comp (snd (BulkOperations.bulkCreateSecrets remoteStagingRefused
                  bulkForm bulkStart)))
  = [ {| BulkOperations.title := lit "Bulk Secret Creation Complete";
         BulkOperations.description :=
           lit "Successfully created secret in 2/4 locations" |} ].
Proof. vm_compute. reflexivity. Qed.

Example secret_decodes : atob (lit "czNjcmV0") = Some (lit "s3cret").
Proof. reflexivity. Qed.

(** A secret value beyond Latin-1 makes [btoa] throw: nothing is
    written, and the message of the exception is the error of every
    result. *)
Example beyond_latin1_results :
  let f :=
    {| BulkOperations.organization := lit "acme";
       BulkOperations.token := lit "ghp_x";
       BulkOperations.onEnvironmentCreated := false;
       BulkOperations.selectedRepos := [api];
       BulkOperations.selectedEnvironments := [production];
       BulkOperations.secretName := lit "TOKEN";
       BulkOperations.secretValue := [1087%N; 97%N];
       BulkOperations.variableName := [];
       BulkOperations.variableValue := [] |} in
  let s := snd (BulkOperations.bulkCreateSecrets remoteUp f bulkStart) in
  requests s = [BulkSpec.envCheck api production]
  /\ BulkOperations.results (comp s)
     = [ {| BulkOperations.repo := api;
            BulkOperations.environment := production;
            BulkOperations.success := false;
            BulkOperations.error := Some (lit "Invalid character") |} ].
Proof. vm_compute. split; reflexivity. Qed.

(** The manager sends its write and then asks for the listing again. *)
Example manager_requests :
  requests (snd (EnvironmentManager.createSecret remoteUp managerForm
                   managerStart))
  = [ {| method := PUT; resource := SecretR api production (lit "TOKEN");
         body := EncryptedValue (lit "czNjcmV0") |};
      {| method := GET; resource := SecretsR api production;
         body := NoBody |} ].
Proof. vm_compute. reflexivity. Qed.

(** When the remote cannot be reached the manager stops at the first
    write and raises the error toast, not the count. *)
Example manager_unreachable :
  EnvironmentManager.toasts
    (comp (snd (EnvironmentManager.createSecret remoteDown managerForm
                  managerStart)))
  = [ {| EnvironmentManager.title := lit "Error";
         EnvironmentManager.description := lit "Failed to create secret";
         EnvironmentManager.variant := Some (lit "destructive") |} ].
Proof. vm_compute. reflexivity. Qed.

(** The secret [TOKEN], stored in [api]/[production] and
    [web]/[staging], is found in two locations and missing in the six
    others of the grid. *)
Example inventory_token :
  map (fun e => (GlobalSecretsList.entryName e,
                 length (GlobalSecretsList.locations e),
                 length (GlobalSecretsList.missingIn e)))
      (GlobalSecretsList.values
         (GlobalSecretsList.secretsMap
            (comp (snd (GlobalSecretsList.fetchAllSecretsAndVariables
                          inventoryRemote inventoryProps inventoryStart)))))
  = [(lit "TOKEN", 2, 6)].
Proof. vm_compute. reflexivity. Qed.

End ScenarioRuns.

Section Witnesses.
Import JS Eff Scenario.

Lemma bulkForm_accepted k : BulkSpec.accepted bulkForm k.
Proof. destruct k; repeat split; try reflexivity; discriminate. Defined.

Lemma bulkForm_repos_NoDup :
  NoDup (BulkOperations.selectedRepos bulkForm).
Proof. repeat constructor; cbn; intuition discriminate. Defined.

Lemma bulkForm_envs_NoDup :
  NoDup (BulkOperations.selectedEnvironments bulkForm).
Proof. repeat constructor; cbn; intuition discriminate. Defined.

Lemma bulk_results_cover_product_witness :
  let rs :=
    BulkOperations.results
      (comp (snd (BulkSpec.bulkCreate remoteStagingRefused bulkForm Secrets
                    bulkStart))) in
  length rs
  = length (BulkOperations.selectedRepos bulkForm)
    * length (BulkOperations.selectedEnvironments bulkForm)
  /\ NoDup (map BulkSpec.target rs)
  /\ (forall repo env,
        In (repo, env) (map BulkSpec.target rs)
        <-> In repo (BulkOperations.selectedRepos bulkForm)
            /\ In env (BulkOperations.selectedEnvironments bulkForm)).
Proof.
  apply (bulk_results_cover_product remoteStagingRefused bulkForm Secrets
           bulkStart (bulkForm_accepted Secrets)
           bulkForm_repos_NoDup bulkForm_envs_NoDup).
Defined.

Lemma createEnvironmentIfNeeded_outcomes_witness :
  fst (BulkOperations.createEnvironmentIfNeeded remoteStagingRefused bulkForm
         api staging bulkStart) = Returns false
  /\ requests (snd (BulkOperations.createEnvironmentIfNeeded
                      remoteStagingRefused bulkForm api staging bulkStart))
     = [BulkSpec.envCheck api staging; BulkSpec.envCreate api staging].
Proof.
  destruct (createEnvironmentIfNeeded_outcomes remoteStagingRefused bulkForm
              api staging bulkStart) as (_ & H404 & _).
  destruct (H404 {| status := 404; json := None |} eq_refl eq_refl)
    as (Hreq & b & Hb & Hiff).
  split; [|exact Hreq].
  rewrite Hb. destruct b; [|reflexivity].
  destruct (proj1 Hiff eq_refl) as (c & Hc & Hok).
  injection Hc as <-. discriminate Hok.
Defined.

Lemma environment_failure_skips_write_witness :
  let s1 :=
    snd (forOf [(api, production)]
           (BulkSpec.loopBody remoteStagingRefused bulkForm Secrets)
           (BulkSpec.started bulkStart)) in
  let s' :=
    snd (BulkSpec.bulkCreate remoteStagingRefused bulkForm Secrets
           bulkStart) in
  nth_error (BulkOperations.results (comp s')) 1
  = Some (BulkSpec.environmentFailure api staging)
  /\ exists d bs,
       requests s' = requests s1 ++ d ++ concat bs
       /\ Forall (fun q => resource q = EnvironmentR api staging) d
       /\ Forall2
            (BulkSpec.block
               (BulkSpec.writeOf remoteStagingRefused bulkForm Secrets))
            [(web, production); (web, staging)] bs.
Proof.
  apply (environment_failure_skips_write remoteStagingRefused bulkForm Secrets
           [(api, production)] api staging
           [(web, production); (web, staging)] bulkStart
           (snd (BulkOperations.createEnvironmentIfNeeded
                   remoteStagingRefused bulkForm api staging
                   (snd (forOf [(api, production)]
                           (BulkSpec.loopBody remoteStagingRefused bulkForm
                              Secrets)
                           (BulkSpec.started bulkStart)))))
           (bulkForm_accepted Secrets) eq_refl).
  vm_compute. reflexivity.
Defined.


Lemma bulk_results_in_loop_order_witness :
  let s' := snd (BulkSpec.bulkCreate remoteUp bulkForm Secrets bulkStart) in
  let n := 1 * length (BulkOperations.selectedEnvironments bulkForm) + 0 in
  (exists r, nth_error (BulkOperations.results (comp s')) n = Some r
             /\ BulkOperations.repo r = web
             /\ BulkOperations.environment r = production)
  /\ (exists bs b,
        requests s' = requests bulkStart ++ concat bs
        /\ Forall2 (BulkSpec.block (BulkSpec.writeOf remoteUp bulkForm Secrets))
             (list_prod (BulkOperations.selectedRepos bulkForm)
                (BulkOperations.selectedEnvironments bulkForm)) bs
        /\ nth_error bs n = Some b
        /\ hd_error b = Some (BulkSpec.envCheck web production)).
Proof.
  apply (bulk_results_in_loop_order remoteUp bulkForm Secrets bulkStart
           1 0 web production (bulkForm_accepted Secrets) eq_refl eq_refl).
Defined.


Lemma bulk_guard_returns_silently_witness :
  BulkSpec.bulkCreate remoteUp blankForm Secrets bulkStart
  = (Returns tt, bulkStart).
Proof.
  apply (bulk_guard_returns_silently remoteUp blankForm Secrets bulkStart).
  left. reflexivity.
Defined.

(** With a secret name of two spaces the call is refused, and nothing
    tells the caller: it returns normally and the state is the one it
    started from. *)
Lemma bulk_guard_failure_not_surfaced :
  BulkSpec.rejected blankForm Secrets
  /\ ~ BulkSpec.surfaced bulkStart
         (BulkSpec.bulkCreate remoteUp blankForm Secrets bulkStart).
Proof.
  split; [left; reflexivity|].
  intros [H | H]; apply H; reflexivity.
Qed.


Lemma inventoryRemote_distinct : InventorySpec.listingsDistinct inventoryRemote.
Proof.
  intros h q r l H1 H2. cbn in H1. injection H1 as <-.
  cbn in H2. injection H2 as <-. unfold stored.
  destruct (resource q) as [repo env | repo env n | repo env | repo env];
    cbn; try (split; constructor).
  - destruct (_ || _); cbn; split; repeat constructor; intros [].
  - destruct (_ && _); cbn; split; repeat constructor; intros [].
Defined.



End Witnesses.
(* ================================================================== *)
(** * More of the code: strings and URLs                                 *)
(* ================================================================== *)

Section TrimSpec.
Import JS.

Lemma trimStart_split s :
  exists p, s = p ++ trimStart s /\ blank p = true.
Proof.
  induction s as [|c r (p & Hs & Hp)].
  - exists []. now split.
  - cbn [trimStart]. destruct (isWhiteSpace c) eqn:E.
    + exists (c :: p). split; [cbn; now f_equal|].
      unfold blank in *. cbn. now rewrite E.
    + exists []. now split.
Qed.

Lemma trimStart_head s c r :
  trimStart s = c :: r -> isWhiteSpace c = false.
Proof.
  induction s as [|x s IH]; [discriminate|].
  cbn [trimStart]. destruct (isWhiteSpace x) eqn:E; [exact IH|].
  intros [= <- _]. exact E.
Qed.

Lemma trimStart_fixed s c r :
  s = c :: r -> isWhiteSpace c = false -> trimStart s = s.
Proof. intros -> H. cbn. now rewrite H. Qed.

(** What [trim] does: it cuts white space off both ends, and only
    white space, until a code unit that is none stands at each end. *)
Lemma trim_spec s :
  (exists p q, s = p ++ trim s ++ q /\ blank p = true /\ blank q = true)
  /\ (forall c r, trim s = c :: r ->
        isWhiteSpace c = false /\ isWhiteSpace (last r c) = false).
Proof.
  unfold trim, trimEnd.
  destruct (trimStart_split s) as (p & Hs & Hp).
  destruct (trimStart_split (rev (trimStart s))) as (q & Hr & Hq).
  set (t := trimStart s) in *. set (u := trimStart (rev t)) in *.
  assert (Ht : t = rev u ++ rev q).
  { rewrite <- rev_app_distr, <- Hr. now rewrite rev_involutive. }
  split.
  - exists p, (rev q). rewrite <- Ht. split; [exact Hs|].
    split; [exact Hp | now rewrite blank_rev].
  - intros c r Hu.
    assert (Hlast : isWhiteSpace (last r c) = false).
    { destruct u as [|x u'] eqn:Eu; [discriminate|].
      pose proof (trimStart_head _ _ _ Eu) as Hx.
      cbn [rev] in Hu.
      assert (E : last (rev u' ++ [x]) c = last r c).
      { rewrite Hu. destruct r; [|reflexivity].
        destruct (rev u'); cbn in Hu; [|destruct l; discriminate].
        reflexivity. }
      rewrite <- E, last_last. exact Hx. }
    split; [|exact Hlast].
    destruct t as [|y t'] eqn:Et.
    + destruct (rev u); [discriminate|]. destruct (rev q); discriminate.
    + pose proof (trimStart_head _ _ _ Et) as Hy.
      rewrite Hu in Ht. cbn in Ht. injection Ht as -> _. exact Hy.
Qed.

(** X1.  [handleSubmit] calls [onSubmit] exactly when the token holds a
    code unit that is not white space, and then with the token cut at
    both ends: not empty, no white space at either end, and the token
    is what was handed over between two runs of white space. *)
Theorem handleSubmit_trimmed token :
  (TokenInput.handleSubmit token = None <-> blank token = true)
  /\ (forall t, TokenInput.handleSubmit token = Some t ->
        (exists c r, t = c :: r /\ isWhiteSpace c = false
                     /\ isWhiteSpace (last r c) = false)
        /\ (exists p q, token = p ++ t ++ q
                        /\ blank p = true /\ blank q = true)).
Proof.
  unfold TokenInput.handleSubmit.
  pose proof (falsy_trim token) as Hf.
  destruct (trim_spec token) as [Hsplit Hends].
  destruct (falsy (trim token)) eqn:E; cbn [negb].
  - split; [split; [now intros _ | reflexivity]|]. discriminate.
  - split; [split; [discriminate | intros H; congruence]|].
    intros t [= <-]. split; [|exact Hsplit].
    destruct (trim token) as [|c r] eqn:Et; [discriminate|].
    exists c, r. split; [reflexivity|]. now apply Hends.
Qed.

End TrimSpec.

Section UrlFacts.
Import JS Eff GitHubApi.

Lemma stripTrailingSlash_snoc (u : jsstring) :
  stripTrailingSlash (u ++ [slash]) = u.
Proof.
  unfold stripTrailingSlash. rewrite rev_app_distr. cbn.
  apply rev_involutive.
Qed.

Lemma stripTrailingSlash_plain (u : jsstring) :
  last u 0%N <> slash -> stripTrailingSlash u = u.
Proof.
  intros H. unfold stripTrailingSlash.
  destruct (rev u) as [|c r] eqn:E; [reflexivity|].
  assert (Hu : u = rev r ++ [c]).
  { rewrite <- (rev_involutive u), E. reflexivity. }
  rewrite Hu, last_last in H. apply N.eqb_neq in H. now rewrite H.
Qed.

(** X2.  With the enterprise URL set to a string that is not empty, the
    API root is that string without one final slash, followed by
    [/api/v3]: writing the URL with or without the final slash gives
    the same root.  Only one slash is removed.  With the variable unset
    or empty the root is the public one. *)
Theorem getGitHubApiUrl_trailing_slash (u : jsstring) :
  u <> [] -> last u 0%N <> slash ->
  getGitHubApiUrl (Some u) = u ++ lit "/api/v3"
  /\ getGitHubApiUrl (Some (u ++ [slash])) = getGitHubApiUrl (Some u)
  /\ getGitHubApiUrl (Some (u ++ [slash; slash]))
     = u ++ [slash] ++ lit "/api/v3"
  /\ getGitHubApiUrl (Some []) = getGitHubApiUrl None.
Proof.
  intros Hne Hlast.
  assert (H1 : getGitHubApiUrl (Some u) = u ++ lit "/api/v3").
  { unfold getGitHubApiUrl. destruct u; [contradiction|]. cbn [falsy negb].
    now rewrite stripTrailingSlash_plain. }
  split; [exact H1|]. split; [|split; [|reflexivity]].
  - rewrite H1. unfold getGitHubApiUrl.
    destruct (u ++ [slash]) eqn:E; [now destruct u|]. cbn [falsy negb].
    now rewrite <- E, stripTrailingSlash_snoc.
  - unfold getGitHubApiUrl.
    change [slash; slash] with ([slash] ++ [slash]). rewrite app_assoc.
    destruct ((u ++ [slash]) ++ [slash]) eqn:E; [now destruct u|].
    cbn [falsy negb]. rewrite <- E, stripTrailingSlash_snoc.
    now rewrite <- app_assoc.
Qed.

Lemma split_at_first {A} (c : A) l1 l2 r1 r2 :
  ~ In c l1 -> ~ In c l2 ->
  l1 ++ c :: r1 = l2 ++ c :: r2 -> l1 = l2 /\ r1 = r2.
Proof.
  revert l2. induction l1 as [|a l1 IH]; intros [|b l2] H1 H2 E; cbn in E.
  - injection E as E. now split.
  - injection E as E _. exfalso. apply H2. now left.
  - injection E as E _. exfalso. apply H1. now left.
  - injection E as -> E. apply IH in E as [-> ->].
    + now split.
    + intros H. apply H1. now right.
    + intros H. apply H2. now right.
Qed.

Lemma slashFree_end l1 l2 r :
  slashFree l1 -> l1 = l2 ++ slash :: r -> False.
Proof.
  intros H E. apply H. rewrite E. apply in_or_app. right. now left.
Qed.

Lemma url_parts base organization r :
  url base organization r
  = base ++ lit "/repos/" ++ organization ++ lit "/" ++ repoOf r
    ++ lit "/environments/" ++ envOf r ++ restOf r.
Proof.
  destruct r; cbn [url repoOf envOf restOf]; rewrite ?app_nil_r; reflexivity.
Qed.

Lemma restOf_cases r : restOf r = [] \/ exists x, restOf r = slash :: x.
Proof. destruct r; cbn; eauto. Qed.

Lemma segments_slashFree r :
  Forall slashFree (segments r) -> slashFree (repoOf r) /\ slashFree (envOf r).
Proof.
  destruct r; cbn; intros H; inversion_clear H as [|? ? H1 H'];
    inversion_clear H' as [|? ? H2 _]; now split.
Qed.

(** X3.  As long as the names of repositories, environments and secrets
    hold no slash, two different resources have different URLs: the
    URLs tell the endpoints apart. *)
Theorem url_injective base organization r1 r2 :
  Forall slashFree (segments r1) -> Forall slashFree (segments r2) ->
  r1 <> r2 -> url base organization r1 <> url base organization r2.
Proof.
  intros H1 H2 Hne E. apply Hne. rewrite !url_parts in E.
  apply segments_slashFree in H1 as [Hr1 He1].
  apply segments_slashFree in H2 as [Hr2 He2].
  do 4 apply app_inv_head in E.
  change (lit "/environments/") with (slash :: lit "environments/") in E.
  cbn [app] in E. apply split_at_first in E as [Erepo E]; try assumption.
  apply app_inv_head in E.
  assert (Eenv : envOf r1 = envOf r2 /\ restOf r1 = restOf r2).
  { destruct (restOf_cases r1) as [R1 | [x1 R1]];
      destruct (restOf_cases r2) as [R2 | [x2 R2]]; rewrite R1, R2 in *.
    - rewrite !app_nil_r in E. now split.
    - rewrite app_nil_r in E. now apply slashFree_end in E.
    - rewrite app_nil_r in E. symmetry in E. now apply slashFree_end in E.
    - apply split_at_first in E as [-> ->]; try assumption. now split. }
  destruct Eenv as [Eenv Erest].
  destruct r1, r2; cbn in Erepo, Eenv, Erest; subst;
    try reflexivity; try discriminate Erest.
  injection Erest as ->. reflexivity.
Qed.

End UrlFacts.

(* ================================================================== *)
(** * More of bulk-operations                                            *)
(* ================================================================== *)

Section SelectionFacts.
Import JS BulkDialog.

Lemma eqb_refl (a : jsstring) : JS.eqb a a = true.
Proof. now apply eqb_eq. Qed.

Lemma eqb_neq (a b : jsstring) : JS.eqb a b = false <-> a <> b.
Proof.
  rewrite <- not_true_iff_false. now rewrite eqb_eq.
Qed.

Lemma eqb_sym (a b : jsstring) : JS.eqb a b = JS.eqb b a.
Proof.
  destruct (JS.eqb a b) eqn:E.
  - apply eqb_eq in E. subst. symmetry. apply eqb_refl.
  - symmetry. apply eqb_neq. apply eqb_neq in E. congruence.
Qed.

Lemma includes_In name l : includes name l = true <-> In name l.
Proof.
  unfold includes. rewrite existsb_exists. split.
  - intros (x & Hx & E). apply eqb_eq in E. now subst.
  - intros H. exists name. split; [exact H | apply eqb_refl].
Qed.

Lemma includes_app name l1 l2 :
  includes name (l1 ++ l2) = includes name l1 || includes name l2.
Proof. apply existsb_app. Qed.

Lemma includes_removed other name l :
  includes other (filter (fun r => negb (JS.eqb r name)) l)
  = if JS.eqb other name then false else includes other l.
Proof.
  unfold includes. induction l as [|x l IH]; cbn [filter existsb].
  - now destruct (JS.eqb other name).
  - destruct (JS.eqb x name) eqn:Ex; cbn [negb existsb].
    + rewrite IH. destruct (JS.eqb other name) eqn:Eo; [reflexivity|].
      replace (JS.eqb other x) with false; [reflexivity|].
      symmetry. apply eqb_neq. apply eqb_eq in Ex. apply eqb_neq in Eo.
      congruence.
    + rewrite IH. destruct (JS.eqb other name) eqn:Eo; [|reflexivity].
      apply eqb_eq in Eo. subst other. rewrite eqb_sym, Ex. reflexivity.
Qed.

Lemma removed_absent name l :
  includes name l = false ->
  filter (fun r => negb (JS.eqb r name)) l = l.
Proof.
  unfold includes. induction l as [|x l IH]; [reflexivity|].
  cbn [existsb filter]. intros H. apply orb_false_iff in H as [Hx Hl].
  rewrite eqb_sym, Hx. cbn [negb]. now rewrite IH.
Qed.

(** X4.  After [handleRepoSelection] (and [handleEnvSelection], the same
    text) the box of the name handled shows what was reported and every
    other box shows what it showed before; the names kept stay in their
    order, and checking a name that was not selected and unchecking it
    again gives the selection back. *)
Theorem selection_handlers_toggle selected name checked :
  (forall other,
     includes other (handleRepoSelection selected name checked)
     = if JS.eqb other name then checked else includes other selected)
  /\ (forall other,
        includes other (handleEnvSelection selected name checked)
        = if JS.eqb other name then checked else includes other selected)
  /\ (includes name selected = false ->
      handleRepoSelection (handleRepoSelection selected name true) name false
      = selected
      /\ handleEnvSelection (handleEnvSelection selected name true) name false
         = selected).
Proof.
  assert (H : forall other,
    includes other (if checked then selected ++ [name]
                    else filter (fun r => negb (JS.eqb r name)) selected)
    = if JS.eqb other name then checked else includes other selected).
  { intros other. destruct checked.
    - rewrite includes_app. cbn. rewrite orb_false_r.
      destruct (JS.eqb other name); [apply orb_true_r | apply orb_false_r].
    - apply includes_removed. }
  split; [exact H|]. split; [exact H|].
  intros Habs.
  assert (E : filter (fun r => negb (JS.eqb r name)) (selected ++ [name])
              = selected).
  { rewrite filter_app. cbn. rewrite eqb_refl. cbn. rewrite app_nil_r.
    now apply removed_absent. }
  split; exact E.
Qed.

Lemma handle_NoDup selected name checked :
  NoDup selected ->
  checked = negb (includes name selected) ->
  NoDup (if checked then selected ++ [name]
         else filter (fun r => negb (JS.eqb r name)) selected).
Proof.
  intros Hnd ->. destruct (includes name selected) eqn:E; cbn [negb].
  - now apply NoDup_filter.
  - apply NoDup_app; [exact Hnd | repeat constructor; intros [] |].
    intros x Hx [<- | []]. apply includes_In in Hx. congruence.
Qed.

Lemma COMMON_ENVIRONMENTS_NoDup : NoDup BulkOperations.COMMON_ENVIRONMENTS.
Proof.
  unfold BulkOperations.COMMON_ENVIRONMENTS. cbn.
  repeat constructor; cbn; intuition discriminate.
Qed.

(** X5.  When the repositories have distinct names, no selection the
    dialog can reach from its empty start holds a name twice: not
    through the checkboxes, Select All, Clear, the reset or a preset.
    So the pairs of a bulk run are distinct. *)
Theorem reachable_selections_NoDup repositories sel :
  NoDup (map name repositories) ->
  reachable repositories sel ->
  NoDup (selectedRepos sel) /\ NoDup (selectedEnvironments sel)
  /\ NoDup (list_prod (selectedRepos sel) (selectedEnvironments sel)).
Proof.
  intros Hnames Hreach.
  assert (H : NoDup (selectedRepos sel) /\ NoDup (selectedEnvironments sel)).
  { induction Hreach as [|sel a _ [IHr IHe] Hbox].
    - split; constructor.
    - destruct a as [n c | n c | | | | | | isOpen [[repo env]|]];
        cbn [act fromCheckbox selectedRepos selectedEnvironments] in *.
      + split; [|exact IHe]. now apply handle_NoDup.
      + split; [exact IHr|]. now apply handle_NoDup.
      + split; [exact Hnames | exact IHe].
      + split; [constructor | exact IHe].
      + split; [exact IHr | apply COMMON_ENVIRONMENTS_NoDup].
      + split; [exact IHr | constructor].
      + split; constructor.
      + unfold applyPreset. destruct isOpen; [|now split].
        split; cbn [selectedRepos selectedEnvironments].
        * destruct repo as [r|]; [|exact IHr].
          destruct (falsy r); [exact IHr|]. repeat constructor. intros [].
        * destruct env as [e|]; [|exact IHe].
          destruct (falsy e); [exact IHe|]. repeat constructor. intros [].
      + now split. }
  destruct H as [Hr He]. split; [exact Hr|]. split; [exact He|].
  now apply NoDup_list_prod.
Qed.

End SelectionFacts.

Section BulkMore.
Import JS Eff BulkOperations BulkSpec BulkDialog.
Variable pf : Platform.
Variable f : Form.

Lemma filter_split_length {A} (p : A -> bool) l :
  length (filter p l) + length (filter (fun x => negb (p x)) l) = length l.
Proof.
  induction l as [|x l IH]; [reflexivity|].
  cbn. destruct (p x); cbn; lia.
Qed.

(** X6.  After a bulk run the counts under the results table add up to
    the number of targets, the table is shown, and the count of the
    toast is the count of successes of the table. *)
Theorem bulk_summary_adds_up k (s : Sys State) :
  accepted f k ->
  let c' := comp (snd (bulkCreate pf f k s)) in
  successfulShown (results c') + failedShown (results c')
  = length (BulkOperations.selectedRepos f)
    * length (BulkOperations.selectedEnvironments f)
  /\ tableShown (results c') = true
  /\ toasts c'
     = toasts (comp s) ++ [reportOf f k (successfulShown (results c'))].
Proof.
  intros Hacc. pose proof (totalOperations_positive f k Hacc) as Hpos.
  destruct (bulkCreate_accepted pf f k s Hacc)
    as (rs & bs & s' & Hrun & _ & _ & Hts & _ & Hres & _ & Htoast & _).
  rewrite Hrun. cbn [snd]. cbv zeta. rewrite Hres.
  assert (Hlen : length rs = totalOperations f).
  { rewrite <- (length_map target), Hts. apply length_prod. }
  split; [|split].
  - unfold successfulShown, failedShown. rewrite filter_split_length.
    exact Hlen.
  - unfold tableShown. rewrite Hlen. now apply Nat.ltb_lt.
  - exact Htoast.
Qed.






(** X8.  While a bulk run is under way, after any number n of its
    targets: [isProcessing] is true, the results table is still empty
    (the results are handed over only at the end), n results are held,
    no toast was raised, and as soon as a target is done the progress
    is (n / total) * 100. *)
Theorem bulk_state_under_way k (s : Sys State) n :
  let total := totalOperations f in
  let done := firstn n (targets f) in
  let c1 := comp (snd (forOf done (loopBody pf f k) (started s))) in
  isProcessing c1 = true
  /\ results c1 = []
  /\ map target (operationResults c1) = done
  /\ completedOperations c1 = length done
  /\ toasts c1 = toasts (comp s)
  /\ (done <> [] -> progress c1 = progressOf (length done) total).
Proof.
  cbv zeta.
  destruct (bulk_targets_spec pf f (writeOf pf f k) (totalOperations f)
              (firstn n (targets f)) (started s))
    as (rs & bs & s1 & Hrun & _ & _ & Hran).
  fold (loopBody pf f k) in Hrun. rewrite Hrun. cbn [snd].
  destruct Hran as (R1 & R2 & _ & R3 & _ & R5 & R6 & R7 & R8).
  cbn in R1, R3, R5, R6, R7, R8.
  repeat split; try assumption.
  - now rewrite R1.
  - intros Hne. rewrite R5. unfold progressSteps.
    destruct (length (firstn n (targets f))) as [|m] eqn:E.
    + destruct (firstn n (targets f)); [contradiction | discriminate].
    + rewrite seq_S, map_app. cbn [map]. now rewrite last_last.
Qed.

(** X9.  [createEnvironmentIfNeeded] calls [onEnvironmentCreated] once
    at most, and only when the callback was passed and the function
    has just created the environment: it issued the create call and
    returns true.  For an environment that exists, or when the create
    call fails, the callback is not called. *)
Theorem callback_only_after_creation repo env (s : Sys State) :
  let run := createEnvironmentIfNeeded pf f repo env s in
  let calls := environmentCreatedCalls (comp s) in
  let calls' := environmentCreatedCalls (comp (snd run)) in
  (calls' = S calls
   /\ onEnvironmentCreated f = true
   /\ fst run = Returns true
   /\ requests (snd run)
      = requests s ++ [envCheck repo env; envCreate repo env])
  \/ (calls' = calls
      /\ (onEnvironmentCreated f = false
          \/ fst run = Returns false
          \/ requests (snd run) = requests s ++ [envCheck repo env])).
Proof.
  cbv zeta. pose proof (createEnvironmentIfNeeded_cases pf f repo env s) as H.
  cbv zeta in H. rewrite <- app_assoc in H. cbn [app] in H.
  destruct (net pf (requests s) (envCheck repo env)) as [r|e].
  - destruct (status r =? 404)%N.
    + destruct (net pf _ (envCreate repo env)) as [r'|e']; rewrite H; cbn.
      * destruct (ok r'); cbn; [|right; auto].
        destruct (onEnvironmentCreated f); cbn; [left | right]; auto.
      * right. auto.
    + rewrite H. cbn. right. auto.
  - rewrite H. cbn. right. auto.
Qed.

End BulkMore.

(* ================================================================== *)
(** * More of global-secrets-list                                        *)
(* ================================================================== *)

Section MapLookup.
Import JS GlobalSecretsList.
Context {V : Type}.

Lemma has_false_get k (m : JsMap V) : has k m = false -> get k m = None.
Proof.
  unfold has. induction m as [|[k' v] m IH]; [reflexivity|].
  cbn. intros H. apply orb_false_iff in H as [H1 H2].
  rewrite H1. now apply IH.
Qed.

Lemma has_true_get k (m : JsMap V) :
  has k m = true -> exists v, get k m = Some v.
Proof.
  unfold has. induction m as [|[k' v] m IH]; [discriminate|].
  cbn. destruct (JS.eqb k' k); [eauto|]. exact IH.
Qed.

(** Looking up after a change in place. *)
Lemma get_mutate n (g : V -> V) k (m : JsMap V) :
  get k (mutate n g m)
  = if JS.eqb n k then option_map g (get k m) else get k m.
Proof.
  induction m as [|[k' v] m IH]; cbn.
  - now destruct (JS.eqb n k).
  - destruct (JS.eqb k' n) eqn:En; cbn.
    + apply eqb_eq in En. subst k'.
      destruct (JS.eqb n k); reflexivity.
    + destruct (JS.eqb k' k) eqn:Ek.
      * apply eqb_eq in Ek. subst k'.
        replace (JS.eqb n k) with false; [reflexivity|].
        symmetry. apply eqb_neq. apply eqb_neq in En. congruence.
      * exact IH.
Qed.

Lemma get_app k (m1 m2 : JsMap V) :
  get k (m1 ++ m2)
  = match get k m1 with Some v => Some v | None => get k m2 end.
Proof.
  induction m1 as [|[k' v] m1 IH]; [reflexivity|].
  cbn. destruct (JS.eqb k' k); [reflexivity | exact IH].
Qed.

(** Looking up after [set] of a key the map does not hold. *)
Lemma get_set_fresh n (v : V) k (m : JsMap V) :
  has n m = false ->
  get k (set n v m) = if JS.eqb n k then Some v else get k m.
Proof.
  intros H. unfold set. rewrite H, get_app. cbn.
  destruct (JS.eqb n k) eqn:E.
  - apply eqb_eq in E. subst k. now rewrite (has_false_get n m H).
  - now destruct (get k m).
Qed.

Lemma get_forEachValue (g : V -> V) k (m : JsMap V) :
  get k (forEachValue g m) = option_map g (get k m).
Proof.
  unfold forEachValue. induction m as [|[k' v] m IH]; [reflexivity|].
  cbn. destruct (JS.eqb k' k); [reflexivity | exact IH].
Qed.

End MapLookup.

Section CollectFacts.
Import JS GlobalSecretsList ScanSpec.
Context {L : Type}.

Lemma get_sight n (l : L) k (m : JsMap (Entry L)) :
  get k (sight n l m)
  = if JS.eqb n k
    then Some {| entryName :=
                   match get n m with Some e => entryName e | None => n end;
                 locations :=
                   match get n m with Some e => locations e | None => [] end
                   ++ [l];
                 missingIn :=
                   match get n m with Some e => missingIn e | None => [] end |}
    else get k m.
Proof.
  unfold sight. rewrite get_mutate.
  destruct (has n m) eqn:Hhas; cbn [negb].
  - destruct (JS.eqb n k) eqn:E; [|reflexivity].
    apply eqb_eq in E. subst k.
    destruct (has_true_get n m Hhas) as [e He]. now rewrite He.
  - rewrite (get_set_fresh n _ k m Hhas).
    destruct (JS.eqb n k) eqn:E; [|reflexivity].
    rewrite (has_false_get n m Hhas). reflexivity.
Qed.

Lemma entryOf_push n (ls : list L) l :
  entryOf n (ls ++ [l])
  = Some {| entryName := n; locations := ls ++ [l]; missingIn := [] |}.
Proof. destruct ls; reflexivity. Qed.

(** Recording the items of one listing pushes, on the entry of every
    name, the items of that name, in their order. *)
Lemma get_sightAll n items : forall (m : JsMap (Entry L)) ls,
  get n m = entryOf n ls ->
  get n (sightAll items m) = entryOf n (ls ++ pushes n items).
Proof.
  unfold sightAll, pushes.
  induction items as [|[n' l] items IH]; intros m ls Hm; cbn [fold_left].
  - cbn. now rewrite app_nil_r.
  - cbn [filter fst snd]. rewrite (eqb_sym n' n).
    destruct (JS.eqb n n') eqn:E.
    + apply eqb_eq in E. subst n'. cbn [map snd].
      set (rest := map snd (filter (fun item => JS.eqb (fst item) n) items))
        in *.
      replace (ls ++ l :: rest) with ((ls ++ [l]) ++ rest)
        by now rewrite <- app_assoc.
      apply IH. rewrite get_sight, eqb_refl, Hm, entryOf_push.
      destruct ls; reflexivity.
    + apply IH. rewrite get_sight, (eqb_sym n' n), E. exact Hm.
Qed.

End CollectFacts.

Section ScanEffects.
Import JS Eff GlobalSecretsList InventorySpec ScanSpec.
Variable pf : Platform.
Variable p : Props.

Lemma sameButNewMaps_refl c : sameButNewMaps c c.
Proof. now repeat split. Qed.

Lemma sameButNewMaps_trans c1 c2 c3 :
  sameButNewMaps c1 c2 -> sameButNewMaps c2 c3 -> sameButNewMaps c1 c3.
Proof.
  intros (A1 & A2 & A3 & A4) (B1 & B2 & B3 & B4).
  repeat split; congruence.
Qed.

(** One listing of secrets: a single [GET], whatever the answer, and
    the names of the answer recorded. *)
Lemma scanSecrets_effect t (s : Sys State) :
  exists s',
    scanSecrets pf (fst t) (snd t) s = (Returns tt, s')
    /\ requests s' = requests s ++ [listSecrets (locationOf t)]
    /\ sameButNewMaps (comp s) (comp s')
    /\ newVariablesMap (comp s') = newVariablesMap (comp s)
    /\ newSecretsMap (comp s')
       = sightAll
           (secretItems t
              (secretsOf (net pf (requests s) (listSecrets (locationOf t)))))
           (newSecretsMap (comp s)).
Proof.
  unfold scanSecrets, tryCatch, bind at 1, fetch, secretsOf, answerOf,
    listSecrets, locationOf.
  cbn [repository environment].
  destruct (net pf (requests s) _) as [r|e].
  - destruct (ok r).
    + unfold bind, jsonOf. destruct (json r) as [l|].
      * eexists. cbn. split; [reflexivity|]. cbn.
        split; [reflexivity|]. split; [now repeat split|].
        now split.
      * eexists. cbn. split; [reflexivity|]. cbn.
        split; [reflexivity|]. split; [now repeat split|].
        now split.
    + eexists. cbn. split; [reflexivity|]. cbn.
      split; [reflexivity|]. split; [now repeat split|].
      now split.
  - eexists. cbn. split; [reflexivity|]. cbn.
    split; [reflexivity|]. split; [now repeat split|].
    now split.
Qed.

Lemma scanVariables_effect t (s : Sys State) :
  exists s',
    scanVariables pf (fst t) (snd t) s = (Returns tt, s')
    /\ requests s' = requests s ++ [listVariables (locationOf t)]
    /\ sameButNewMaps (comp s) (comp s')
    /\ newSecretsMap (comp s') = newSecretsMap (comp s)
    /\ newVariablesMap (comp s')
       = sightAll
           (variableItems t
              (variablesOf
                 (net pf (requests s) (listVariables (locationOf t)))))
           (newVariablesMap (comp s)).
Proof.
  unfold scanVariables, tryCatch, bind at 1, fetch, variablesOf, answerOf,
    listVariables, locationOf.
  cbn [repository environment].
  destruct (net pf (requests s) _) as [r|e].
  - destruct (ok r).
    + unfold bind, jsonOf. destruct (json r) as [l|].
      * eexists. cbn. split; [reflexivity|]. cbn.
        split; [reflexivity|]. split; [now repeat split|].
        now split.
      * eexists. cbn. split; [reflexivity|]. cbn.
        split; [reflexivity|]. split; [now repeat split|].
        now split.
    + eexists. cbn. split; [reflexivity|]. cbn.
      split; [reflexivity|]. split; [now repeat split|].
      now split.
  - eexists. cbn. split; [reflexivity|]. cbn.
    split; [reflexivity|]. split; [now repeat split|].
    now split.
Qed.

(** The requests of the two loops: two per pair, in the order of the
    pairs. *)
Lemma scan_targets_requests ts : forall (s : Sys State),
  exists s',
    forOf ts (scanPair pf) s = (Returns tt, s')
    /\ requests s'
       = requests s ++ flat_map scanRequests (map locationOf ts)
    /\ sameButNewMaps (comp s) (comp s').
Proof.
  induction ts as [|t ts IH]; intros s.
  - exists s. cbn. rewrite app_nil_r.
    split; [reflexivity|]. split; [reflexivity | apply sameButNewMaps_refl].
  - destruct (scanSecrets_effect t s) as (s1 & Hrun1 & Hq1 & Hc1 & _).
    destruct (scanVariables_effect t s1) as (s2 & Hrun2 & Hq2 & Hc2 & _).
    destruct (IH s2) as (s' & Hrun & Hq & Hc).
    exists s'. cbn [forOf]. unfold bind at 1, scanPair at 1, bind at 1.
    rewrite Hrun1, Hrun2. split; [exact Hrun|]. split.
    + rewrite Hq, Hq2, Hq1. cbn [map flat_map scanRequests app].
      now rewrite <- !app_assoc.
    + eapply sameButNewMaps_trans; [exact Hc1|].
      eapply sameButNewMaps_trans; [exact Hc2 | exact Hc].
Qed.

(** The whole call in terms of the state the loops end in. *)
Lemma fetchAll_after_loops (s s2 : Sys State) :
  forOf (list_prod (repositories p) COMMON_ENVIRONMENTS) (scanPair pf)
    (scanned s)
  = (Returns tt, s2) ->
  exists s',
    fetchAllSecretsAndVariables pf p s = (Returns tt, s')
    /\ requests s' = requests s2
    /\ loading (comp s') = false
    /\ toasts (comp s') = toasts (comp s2)
    /\ secretsMap (comp s')
       = forEachValue (fillMissing (fun l => l) (allLocations p))
           (newSecretsMap (comp s2))
    /\ variablesMap (comp s')
       = forEachValue (fillMissing place (allLocations p))
           (newVariablesMap (comp s2)).
Proof.
  intros Hloop. unfold fetchAllSecretsAndVariables.
  unfold bind at 1 2 3, modify at 1 2 3. cbn [requests comp].
  fold (scanned s). unfold tryFinally, tryCatch, bind at 1.
  rewrite forOf_nested.
  change (fun t : Repository * jsstring =>
            bind (scanSecrets pf (fst t) (snd t))
                 (fun _ => scanVariables pf (fst t) (snd t)))
    with (scanPair pf).
  rewrite Hloop. cbn. eexists. split; [reflexivity|]. cbn.
  now repeat split.
Qed.

Lemma scanRequests_length :
  length (flat_map scanRequests (allLocations p))
  = 8 * length (repositories p).
Proof.
  unfold allLocations.
  induction (repositories p) as [|r rs IH]; [reflexivity|].
  cbn [flat_map length]. rewrite flat_map_app, length_app, IH.
  cbn. lia.
Qed.

(** X10.  A scan of the inventory always completes, and it only reads: for
    every location of the grid, in the order of the grid, it asks for
    the secrets and then for the variables, whatever the answers are.
    So it sends eight requests per repository, all of them [GET]s; it
    shows no toast and ends with the loading flag down. *)
Theorem scan_requests (s : Sys State) :
  let run := fetchAllSecretsAndVariables pf p s in
  fst run = Returns tt
  /\ requests (snd run)
     = requests s ++ flat_map scanRequests (allLocations p)
  /\ length (requests (snd run))
     = length (requests s) + 8 * length (repositories p)
  /\ Forall (fun q => method q = GET)
            (flat_map scanRequests (allLocations p))
  /\ toasts (comp (snd run)) = toasts (comp s)
  /\ loading (comp (snd run)) = false.
Proof.
  cbv zeta.
  destruct (scan_targets_requests
              (list_prod (repositories p) COMMON_ENVIRONMENTS) (scanned s))
    as (s2 & Hloop & Hq & Hc).
  destruct (fetchAll_after_loops s s2 Hloop)
    as (s' & Hrun & Hq' & Hl & Ht & _).
  rewrite <- allLocations_targets in Hq.
  rewrite Hrun. cbn [fst snd].
  assert (Hreq : requests s'
                 = requests s ++ flat_map scanRequests (allLocations p))
    by (rewrite Hq', Hq; reflexivity).
  split; [reflexivity|]. split; [exact Hreq|]. split; [|split; [|split]].
  - rewrite Hreq, length_app. f_equal. apply scanRequests_length.
  - apply Forall_flat_map, Forall_forall. intros loc _.
    repeat constructor.
  - rewrite Ht. destruct Hc as (_ & _ & _ & Hc). exact Hc.
  - exact Hl.
Qed.

End ScanEffects.

Section ScanFinds.
Import JS Eff GlobalSecretsList InventorySpec ScanSpec.
Variable pf : Platform.
Variable p : Props.

Lemma pushes_map {A L} (f : A -> jsstring) (g : A -> L) n (l : list A) :
  pushes n (map (fun x => (f x, g x)) l)
  = map g (filter (fun x => JS.eqb (f x) n) l).
Proof.
  unfold pushes. induction l as [|x l IH]; [reflexivity|].
  cbn [map filter fst]. destruct (JS.eqb (f x) n); cbn [map snd];
    now rewrite IH.
Qed.

(** What the loops leave on the entries of a name: one push per pair
    and per listed item of that name, in the order of the pairs. *)
Lemma scan_targets_finds n ts :
  stable pf ->
  forall (s : Sys State) found values,
  get n (newSecretsMap (comp s)) = entryOf n found ->
  get n (newVariablesMap (comp s)) = entryOf n values ->
  exists s',
    forOf ts (scanPair pf) s = (Returns tt, s')
    /\ get n (newSecretsMap (comp s'))
       = entryOf n (found ++ flat_map (sightings pf n) (map locationOf ts))
    /\ get n (newVariablesMap (comp s'))
       = entryOf n (values ++ flat_map (valuesAt pf n) (map locationOf ts)).
Proof.
  intros steady.
  induction ts as [|t ts IH]; intros s found values Hs Hv.
  - exists s. cbn. now rewrite !app_nil_r.
  - destruct (scanSecrets_effect pf t s)
      as (s1 & Hrun1 & _ & _ & Hv1 & Hs1).
    destruct (scanVariables_effect pf t s1)
      as (s2 & Hrun2 & _ & _ & Hs2 & Hv2).
    rewrite steady in Hs1, Hv2.
    destruct (IH s2 (found ++ sightings pf n (locationOf t))
                    (values ++ valuesAt pf n (locationOf t)))
      as (s' & Hrun & Hs' & Hv').
    + rewrite Hs2, Hs1.
      replace (sightings pf n (locationOf t))
        with (pushes n (secretItems t (secretNamesAt pf (locationOf t))))
        by apply (pushes_map (fun m => m)).
      now apply get_sightAll.
    + rewrite Hv2.
      replace (valuesAt pf n (locationOf t))
        with (pushes n (variableItems t (variablesAt pf (locationOf t))))
        by apply (pushes_map fst).
      apply get_sightAll. now rewrite Hv1.
    + exists s'. cbn [forOf]. unfold bind at 1, scanPair at 1, bind at 1.
      rewrite Hrun1, Hrun2. split; [exact Hrun|].
      cbn [map flat_map]. now rewrite !app_assoc.
Qed.

Lemma in_sightings n grid loc :
  In loc (flat_map (sightings pf n) grid)
  <-> In loc grid /\ holdsSecret pf n loc = true.
Proof.
  rewrite in_flat_map. unfold sightings, holdsSecret. split.
  - intros (l & Hl & H). apply in_map_iff in H as (m & <- & Hm).
    apply filter_In in Hm as [Hm E]. apply eqb_eq in E. subst m.
    split; [exact Hl|]. now apply existsb_eqb_key.
  - intros [Hl H]. exists loc. split; [exact Hl|].
    apply existsb_eqb_key in H. apply in_map_iff. exists n.
    split; [reflexivity|]. apply filter_In. split; [exact H|].
    apply eqb_refl.
Qed.

Lemma in_valuesAt n grid loc :
  In loc (map place (flat_map (valuesAt pf n) grid))
  <-> In loc grid /\ holdsVariable pf n loc = true.
Proof.
  rewrite in_map_iff. unfold holdsVariable. split.
  - intros (vl & <- & H). apply in_flat_map in H as (l & Hl & H).
    unfold valuesAt in H. apply in_map_iff in H as (v & <- & Hv).
    apply filter_In in Hv as [Hv E]. cbn [place].
    split; [exact Hl|]. apply existsb_exists. eauto.
  - intros [Hl H]. apply existsb_exists in H as (v & Hv & E).
    exists {| place := loc; value := snd v |}. split; [reflexivity|].
    apply in_flat_map. exists loc. split; [exact Hl|].
    unfold valuesAt. apply in_map_iff. exists v.
    split; [reflexivity|]. apply filter_In. now split.
Qed.

(** The locations [fillMissing] leaves out are those holding the name,
    when the locations of the entry are the ones of the grid that hold
    it. *)
Lemma missing_filter {L} (whereIs : L -> Location) grid
    (holds : Location -> bool) (found : list L) :
  Forall common grid ->
  (forall loc, In loc (map whereIs found)
               <-> In loc grid /\ holds loc = true) ->
  filter (fun loc =>
            negb (existsb (JS.eqb (key loc))
                    (map (fun l => key (whereIs l)) found)))
         grid
  = filter (fun loc => negb (holds loc)) grid.
Proof.
  intros Hcommon Hfound. apply filter_ext_in. intros loc Hloc. f_equal.
  rewrite Forall_forall in Hcommon.
  destruct (holds loc) eqn:Hh.
  - apply existsb_eqb_key. rewrite <- (map_map whereIs key).
    apply in_map, Hfound. now split.
  - destruct (existsb _ _) eqn:E; [|reflexivity].
    apply existsb_eqb_key in E. rewrite <- (map_map whereIs key) in E.
    apply in_map_iff in E as (loc' & Ek & Hin).
    apply Hfound in Hin as [Hg Hh'].
    apply key_injective in Ek; [|now apply Hcommon|now apply Hcommon].
    congruence.
Qed.

(** Among distinct names, the items equal to [n] are [n] itself if it
    is there. *)
Lemma filter_eqb_NoDup n (l : list jsstring) :
  NoDup l ->
  filter (fun m => JS.eqb m n) l
  = if existsb (JS.eqb n) l then [n] else [].
Proof.
  induction 1 as [|x l Hx Hl IH]; [reflexivity|].
  cbn [filter existsb]. rewrite (eqb_sym x n).
  destruct (JS.eqb n x) eqn:E; cbn [orb].
  - apply eqb_eq in E. subst x. rewrite IH.
    destruct (existsb (JS.eqb n) l) eqn:Ex; [|reflexivity].
    apply existsb_eqb_key in Ex. contradiction.
  - exact IH.
Qed.

Lemma secretNamesAt_NoDup loc :
  listingsDistinct pf -> NoDup (secretNamesAt pf loc).
Proof.
  intros distinct. unfold secretNamesAt, secretsOf, answerOf.
  destruct (net pf [] (listSecrets loc)) as [r|e] eqn:Hnet;
    [|constructor].
  destruct (ok r); [|constructor].
  destruct (json r) as [l|] eqn:Hjson; [|constructor].
  now destruct (distinct _ _ _ _ Hnet Hjson).
Qed.

Lemma sightings_filter n grid :
  listingsDistinct pf ->
  flat_map (sightings pf n) grid = filter (holdsSecret pf n) grid.
Proof.
  intros distinct. induction grid as [|loc grid IH]; [reflexivity|].
  cbn [flat_map filter]. rewrite IH. unfold sightings at 1, holdsSecret at 2.
  rewrite (filter_eqb_NoDup n _ (secretNamesAt_NoDup loc distinct)).
  now destruct (existsb (JS.eqb n) (secretNamesAt pf loc)).
Qed.

(** The two maps a scan publishes, looked up at a name. *)
Lemma fetchAll_finds n (s : Sys State) :
  stable pf ->
  let run := fetchAllSecretsAndVariables pf p s in
  fst run = Returns tt
  /\ get n (secretsMap (comp (snd run)))
     = option_map (fillMissing (fun l => l) (allLocations p))
         (entryOf n (flat_map (sightings pf n) (allLocations p)))
  /\ get n (variablesMap (comp (snd run)))
     = option_map (fillMissing place (allLocations p))
         (entryOf n (flat_map (valuesAt pf n) (allLocations p))).
Proof.
  intros steady. cbv zeta.
  destruct (scan_targets_finds n
              (list_prod (repositories p) COMMON_ENVIRONMENTS) steady
              (scanned s) [] [] eq_refl eq_refl) as (s2 & Hloop & Hs & Hv).
  cbn [app] in Hs, Hv. rewrite <- allLocations_targets in Hs, Hv.
  destruct (fetchAll_after_loops pf p s s2 Hloop)
    as (s' & Hrun & _ & _ & _ & Hsm & Hvm).
  rewrite Hrun. cbn [fst snd]. split; [reflexivity|].
  rewrite Hsm, Hvm, !get_forEachValue, Hs, Hv. now split.
Qed.

(** X11.  Against a remote whose answers do not change during the scan
    and whose listings name a secret at most once, the scan publishes,
    under every name, exactly what the remote holds: the entry of a
    secret lists the locations of the grid where the remote lists that
    name, in grid order, and as missing all the other locations of the
    grid; a name the remote lists nowhere on the grid has no entry. *)
Theorem scan_finds_secrets n (s : Sys State) :
  stable pf -> listingsDistinct pf ->
  get n (secretsMap (comp (snd (fetchAllSecretsAndVariables pf p s))))
  = secretEntry pf (allLocations p) n.
Proof.
  intros steady distinct.
  destruct (fetchAll_finds n s steady) as (_ & Hs & _). rewrite Hs.
  unfold secretEntry. rewrite (sightings_filter n _ distinct).
  pose proof (missing_filter (fun l => l) (allLocations p)
                (holdsSecret pf n)
                (filter (holdsSecret pf n) (allLocations p))
                (allLocations_common p)) as Hmiss.
  destruct (filter (holdsSecret pf n) (allLocations p)) as [|l ls] eqn:E;
    [reflexivity|].
  cbn [entryOf option_map]. unfold fillMissing. cbn [locations entryName].
  rewrite Hmiss; [reflexivity|].
  intros loc. rewrite map_id, <- E. apply filter_In.
Qed.

(** X12.  Against a remote whose answers do not change during the scan,
    the entry the scan publishes for a variable holds one location and
    value for every item of that name the remote lists on the grid, in
    grid order and in the order of each listing, and lists as missing
    the locations of the grid where the remote does not list the name;
    a name listed nowhere on the grid has no entry. *)
Theorem scan_finds_variables n (s : Sys State) :
  stable pf ->
  get n (variablesMap (comp (snd (fetchAllSecretsAndVariables pf p s))))
  = variableEntry pf (allLocations p) n.
Proof.
  intros steady.
  destruct (fetchAll_finds n s steady) as (_ & _ & Hv). rewrite Hv.
  unfold variableEntry.
  pose proof (missing_filter place (allLocations p)
                (holdsVariable pf n)
                (flat_map (valuesAt pf n) (allLocations p))
                (allLocations_common p) (in_valuesAt n (allLocations p)))
    as Hmiss.
  destruct (flat_map (valuesAt pf n) (allLocations p)) as [|l ls];
    [reflexivity|].
  cbn [entryOf option_map]. unfold fillMissing. cbn [locations entryName].
  now rewrite Hmiss.
Qed.

End ScanFinds.

(* ================================================================== *)
(** * More of environment-manager                                        *)
(* ================================================================== *)

Section ManagerMore.
Import JS Eff EnvironmentManager ManagerSpec ManagerForm.
Variable pf : Platform.
Variable f : Form.

(** The component at the end of a call, by how the loop ended. *)
Lemma create_state_after_loop k (s s2 : Sys State) out :
  guard f k = false ->
  forOf (targets f) (loopBody pf f k) (entered s) = (out, s2) ->
  exists s',
    create pf f k s = (Returns tt, s')
    /\ isCreating (comp s') = false
    /\ match out with
       | Returns _ => clearedFields k (comp s2) (comp s')
       | Throws _ => keptFields (comp s2) (comp s')
       end.
Proof.
  unfold guard. intros Hg Hloop. rewrite <- writeLoop_targets in Hloop.
  unfold entered in Hloop.
  destruct k; cbn [create nameOf valueOf writeOf] in *;
    unfold createSecret, createVariable; rewrite Hg;
    unfold bind at 1, modify at 1, tryFinally, tryCatch,
      bind at 1, modify at 1; cbn [requests comp];
    unfold bind at 1; rewrite Hloop;
    destruct out as [[]|e]; cbn; eexists; (split; [reflexivity|]);
    cbn; repeat split.
Qed.

(** X13.  A call that passes the guard always leaves [isCreating] false,
    and it shows exactly one toast: after the report of a run to the
    end, the name and the value of the kind written are cleared and the
    other two fields are untouched; after the error toast, all four
    fields are as the user left them. *)
Theorem manager_create_form k (s : Sys State) :
  guard f k = false ->
  let c' := comp (snd (create pf f k s)) in
  isCreating c' = false
  /\ ((exists n, toasts c' = toasts (comp s) ++ [reportOf f k n])
      /\ clearedFields k (comp s) c'
      \/ toasts c' = toasts (comp s) ++ [failureOf k]
         /\ keptFields (comp s) c').
Proof.
  intros Hg. cbv zeta.
  destruct (write_targets_spec pf f k (targets f) (entered s))
    as (out & s2 & n & qs & Hloop & _ & _ & _ & Hsame & _).
  destruct (create_state_after_loop k s s2 out Hg Hloop)
    as (s' & Hrun & Hc & Hfields).
  destruct (create_after_loop pf f k s s2 out Hg Hloop)
    as (s'' & Hrun' & Hend).
  rewrite Hrun in Hrun'. injection Hrun' as <-.
  rewrite Hrun. cbn [snd]. split; [exact Hc|].
  destruct Hsame as (_ & _ & H1 & H2 & H3 & H4 & Ht). cbn in H1, H2, H3, H4, Ht.
  destruct out as [[]|e].
  - left. destruct Hend as [_ Htoast]. split.
    + eexists. rewrite Htoast, Ht. reflexivity.
    + destruct k; cbn in *; destruct Hfields as (F1 & F2 & F3 & F4);
        repeat split; congruence.
  - right. destruct Hend as [_ Htoast]. split.
    + now rewrite Htoast, Ht.
    + destruct Hfields as (F1 & F2 & F3 & F4). repeat split; congruence.
Qed.

Lemma single_targets :
  bulkMode f = false -> targets f = [(repository f, environment f)].
Proof.
  intros Hb. unfold targets, targetRepos, targetEnvs. now rewrite Hb.
Qed.

(** X14.  Outside bulk mode, whatever repositories and environments are
    ticked, a call that passes the guard writes to the manager's own
    repository and environment only, and counts out of one.  When the
    value cannot be encoded nothing is sent; when the write is rejected
    it is the only request; both end in the error toast.  When the
    write is answered, whatever the status, the listing request follows
    and the toast reports 1/1 for a 2xx answer and 0/1 otherwise. *)
Theorem manager_single_target k (s : Sys State) :
  bulkMode f = false -> guard f k = false ->
  let run := create pf f k s in
  fst run = Returns tt
  /\ totalCount f = 1
  /\ match writeOf pf f k (repository f) (environment f) with
     | Throws _ =>
         requests (snd run) = requests s
         /\ toasts (comp (snd run)) = toasts (comp s) ++ [failureOf k]
     | Returns q =>
         match net pf (requests s) q with
         | Rejects _ =>
             requests (snd run) = requests s ++ [q]
             /\ toasts (comp (snd run)) = toasts (comp s) ++ [failureOf k]
         | Resolves r =>
             requests (snd run) = requests s ++ [q; refreshOf f k]
             /\ toasts (comp (snd run))
                = toasts (comp s)
                  ++ [reportOf f k (if ok r then 1 else 0)]
         end
     end.
Proof.
  intros Hb Hg. cbv zeta.
  assert (Htotal : totalCount f = 1)
    by (unfold totalCount, targetRepos, targetEnvs; now rewrite Hb).
  pose proof (create_after_loop pf f k s) as Hafter.
  rewrite (single_targets Hb) in Hafter.
  cbn [forOf] in Hafter. unfold bind at 1, loopBody, writeTarget, bind at 1,
    liftCompletion in Hafter. cbn [fst snd] in Hafter.
  destruct (writeOf pf f k (repository f) (environment f)) as [q|e].
  - unfold bind at 1, fetch in Hafter. cbn [requests comp entered] in Hafter.
    destruct (net pf (requests s) q) as [r|e].
    + destruct (ok r); cbn in Hafter;
        destruct (Hafter _ _ Hg eq_refl) as (s' & Hrun & Hq & Ht);
        rewrite Hrun; cbn [fst snd]; cbn in Hq, Ht;
        (split; [reflexivity|]); (split; [exact Htotal|]);
        (split; [rewrite Hq, <- app_assoc; reflexivity | exact Ht]).
    + destruct (Hafter _ _ Hg eq_refl) as (s' & Hrun & Hq & Ht).
      rewrite Hrun. cbn [fst snd]. cbn in Hq, Ht. now repeat split.
  - destruct (Hafter _ _ Hg eq_refl) as (s' & Hrun & Hq & Ht).
    rewrite Hrun. cbn [fst snd]. cbn in Hq, Ht. now repeat split.
Qed.

End ManagerMore.

(* ================================================================== *)
(** * repository-grid: the columns of the grid                           *)
(* ================================================================== *)

Section OrderFacts.
Import JS RepositoryGrid.

Lemma ltb_irrefl a : ltb a a = false.
Proof.
  induction a as [|x a IH]; [reflexivity|].
  cbn. now rewrite N.ltb_irrefl.
Qed.

Lemma ltb_trans a : forall b c,
  ltb a b = true -> ltb b c = true -> ltb a c = true.
Proof.
  induction a as [|x a IH]; intros [|y b] [|z c]; cbn; try discriminate;
    try reflexivity.
  destruct (N.ltb_spec x y), (N.ltb_spec y x), (N.ltb_spec y z),
    (N.ltb_spec z y), (N.ltb_spec x z), (N.ltb_spec z x);
    try discriminate; try reflexivity; try lia.
  apply IH.
Qed.

(** Two strings are equal when neither is before the other. *)
Lemma ltb_total a : forall b,
  ltb a b = false -> ltb b a = false -> a = b.
Proof.
  induction a as [|x a IH]; intros [|y b]; cbn; try discriminate;
    try reflexivity.
  destruct (N.ltb_spec x y), (N.ltb_spec y x); try discriminate; try lia.
  intros H1 H2. assert (x = y) by lia. subst. f_equal. now apply IH.
Qed.

Lemma ltb_asym a b : ltb a b = true -> ltb b a = false.
Proof.
  intros H. destruct (ltb b a) eqn:E; [|reflexivity].
  pose proof (ltb_trans _ _ _ H E) as Haa. now rewrite ltb_irrefl in Haa.
Qed.

Lemma in_insert x y l : In y (insert x l) <-> y = x \/ In y l.
Proof.
  induction l as [|z l IH]; cbn.
  - intuition congruence.
  - destruct (ltb z x); cbn; rewrite ?IH; intuition congruence.
Qed.

Lemma in_sort y l : In y (sort l) <-> In y l.
Proof.
  induction l as [|x l IH]; [reflexivity|].
  cbn [sort]. rewrite in_insert, IH. cbn. intuition congruence.
Qed.

Lemma insert_ascending x l :
  ~ In x l -> ascending l -> ascending (insert x l).
Proof.
  induction l as [|z l IH]; intros Hx Hl.
  - cbn. split; constructor.
  - cbn [insert]. destruct Hl as [Hz Hl].
    destruct (ltb z x) eqn:E.
    + cbn [ascending]. split.
      * apply Forall_forall. intros y Hy. apply in_insert in Hy as [->|Hy].
        -- exact E.
        -- rewrite Forall_forall in Hz. now apply Hz.
      * apply IH; [|exact Hl]. intros H. apply Hx. now right.
    + assert (Hxz : ltb x z = true).
      { destruct (ltb x z) eqn:E'; [reflexivity|].
        exfalso. apply Hx. left. symmetry. now apply ltb_total. }
      cbn [ascending]. split; [|now split].
      constructor; [exact Hxz|].
      rewrite Forall_forall in *. intros y Hy.
      eapply ltb_trans; [exact Hxz | now apply Hz].
Qed.

Lemma sort_ascending l : NoDup l -> ascending (sort l).
Proof.
  induction 1 as [|x l Hx Hl IH]; [exact I|].
  cbn [sort]. apply insert_ascending; [|exact IH].
  now rewrite in_sort.
Qed.

Lemma ascending_NoDup l : ascending l -> NoDup l.
Proof.
  induction l as [|x l IH]; intros H; [constructor|].
  destruct H as [Hx Hl]. constructor; [|now apply IH].
  intros Hin. rewrite Forall_forall in Hx. apply Hx in Hin.
  now rewrite ltb_irrefl in Hin.
Qed.

(** An ascending list is told by its members. *)
Lemma ascending_unique l1 : forall l2,
  ascending l1 -> ascending l2 ->
  (forall x, In x l1 <-> In x l2) -> l1 = l2.
Proof.
  induction l1 as [|x l1 IH]; intros [|y l2] H1 H2 Hsame.
  - reflexivity.
  - exfalso. apply (Hsame y). now left.
  - exfalso. apply (Hsame x). now left.
  - destruct H1 as [Hx H1], H2 as [Hy H2].
    rewrite Forall_forall in Hx, Hy.
    assert (x = y).
    { destruct (proj1 (Hsame x) (or_introl eq_refl)) as [->|Hxin];
        [reflexivity|].
      destruct (proj2 (Hsame y) (or_introl eq_refl)) as [->|Hyin];
        [reflexivity|].
      apply Hy in Hxin. apply Hx in Hyin.
      apply ltb_asym in Hxin. congruence. }
    subst y. f_equal. apply IH; try assumption.
    intros z. split; intros Hz.
    + destruct (proj1 (Hsame z) (or_intror Hz)) as [->|H]; [|exact H].
      apply Hx in Hz. now rewrite ltb_irrefl in Hz.
    + destruct (proj2 (Hsame z) (or_intror Hz)) as [->|H]; [|exact H].
      apply Hy in Hz. now rewrite ltb_irrefl in Hz.
Qed.

End OrderFacts.

Section GridFacts.
Import JS RepositoryGrid.

Lemma addAll_spec xs : forall set,
  NoDup set ->
  NoDup (addAll xs set)
  /\ forall y, In y (addAll xs set) <-> In y set \/ In y xs.
Proof.
  induction xs as [|x xs IH]; intros set Hset.
  - cbn. split; [exact Hset|]. intuition.
  - cbn [addAll]. destruct (existsb (JS.eqb x) set) eqn:E.
    + apply existsb_eqb_key in E.
      destruct (IH set Hset) as [Hnd Hin]. split; [exact Hnd|].
      intros y. rewrite Hin. cbn. intuition congruence.
    + assert (Hx : ~ In x set).
      { intros H. apply existsb_eqb_key in H. congruence. }
      destruct (IH (set ++ [x])) as [Hnd Hin].
      { apply NoDup_app; [exact Hset | repeat constructor; intros [] |].
        intros a Ha [<-|[]]. contradiction. }
      split; [exact Hnd|].
      intros y. rewrite Hin, in_app_iff. cbn. intuition.
Qed.

Lemma allEnvs_spec lists : forall set,
  NoDup set ->
  let allEnvs :=
    fold_left (fun set envList => addAll (map name envList) set) lists set in
  NoDup allEnvs
  /\ forall y, In y allEnvs
               <-> In y set
                   \/ exists envList, In envList lists
                                      /\ In y (map name envList).
Proof.
  induction lists as [|l lists IH]; intros set Hset; cbn.
  - split; [exact Hset|]. intros y. split; [now left|].
    intros [H|(l & [] & _)]. exact H.
  - destruct (addAll_spec (map name l) set Hset) as [Hnd Hin].
    destruct (IH _ Hnd) as [Hnd' Hin']. split; [exact Hnd'|].
    intros y. rewrite Hin', Hin. split.
    + intros [[H|H]|(l' & Hl' & H)]; [now left | right | right]; eauto.
    + intros [H|(l' & [<-|Hl'] & H)]; [now left; left | now left; right|].
      right. eauto.
Qed.

Lemma get_in {V} k (v : V) m :
  GlobalSecretsList.get k m = Some v -> In (k, v) m.
Proof.
  induction m as [|[k' v'] m IH]; [discriminate|].
  cbn. destruct (JS.eqb k' k) eqn:E.
  - apply eqb_eq in E. intros [= ->]. left. now subst.
  - intros H. right. now apply IH.
Qed.

Lemma in_get {V} k (v : V) m :
  NoDup (map fst m) -> In (k, v) m -> GlobalSecretsList.get k m = Some v.
Proof.
  induction m as [|[k' v'] m IH]; intros Hnd Hin; [destruct Hin|].
  cbn in Hnd. apply NoDup_cons_iff in Hnd as [Hk Hnd].
  cbn. destruct Hin as [[= -> ->]|Hin].
  - now rewrite eqb_refl.
  - destruct (JS.eqb k' k) eqn:E; [|now apply IH].
    apply eqb_eq in E. subst k'. exfalso. apply Hk.
    apply in_map_iff. exists (k, v). now split.
Qed.

Lemma existsb_name envName (l : list Environment) :
  existsb (fun env => JS.eqb (name env) envName) l = true
  <-> In envName (map name l).
Proof.
  rewrite existsb_exists, in_map_iff. split.
  - intros (e & He & E). apply eqb_eq in E. eauto.
  - intros (e & E & He). exists e. split; [exact He | now apply eqb_eq].
Qed.

Lemma hasEnvironment_true environments repoName envName :
  hasEnvironment environments repoName envName = Some true
  <-> exists l, GlobalSecretsList.get repoName environments = Some l
                /\ In envName (map name l).
Proof.
  unfold hasEnvironment.
  destruct (GlobalSecretsList.get repoName environments) as [l|].
  - split.
    + intros [= H]. exists l. split; [reflexivity|].
      now apply existsb_name.
    + intros (l' & [= <-] & H). f_equal. now apply existsb_name.
  - split.
    + destruct (existsb _ inherited); discriminate.
    + intros (l & [=] & _).
Qed.

Lemma getAllEnvironments_in environments envName :
  In envName (getAllEnvironments environments)
  <-> exists repoName l, In (repoName, l) environments
                         /\ In envName (map name l).
Proof.
  unfold getAllEnvironments. rewrite in_sort.
  destruct (allEnvs_spec (map snd environments) [] (NoDup_nil _))
    as [_ Hin].
  cbv zeta in Hin. rewrite Hin. split.
  - intros [[]|(l & Hl & H)]. apply in_map_iff in Hl as ([r l'] & <- & Hl).
    eauto.
  - intros (r & l & Hl & H). right. exists l. split; [|exact H].
    apply in_map_iff. exists (r, l). now split.
Qed.

Lemma getAllEnvironments_ascending environments :
  ascending (getAllEnvironments environments).
Proof.
  unfold getAllEnvironments. apply sort_ascending.
  now destruct (allEnvs_spec (map snd environments) [] (NoDup_nil _)).
Qed.

(** X15.  The columns [getAllEnvironments] computes are the names of the
    environments some repository has, each once, in ascending order of
    their code units; no other list is ascending with these members. *)
Theorem getAllEnvironments_spec environments :
  wellKeyed environments ->
  (forall envName,
     In envName (getAllEnvironments environments)
     <-> exists repoName,
           hasEnvironment environments repoName envName = Some true)
  /\ ascending (getAllEnvironments environments)
  /\ NoDup (getAllEnvironments environments)
  /\ forall l,
       ascending l ->
       (forall envName,
          In envName l
          <-> exists repoName,
                hasEnvironment environments repoName envName = Some true) ->
       l = getAllEnvironments environments.
Proof.
  intros Hkeys.
  assert (Hin : forall envName,
            In envName (getAllEnvironments environments)
            <-> exists repoName,
                  hasEnvironment environments repoName envName = Some true).
  { intros envName. rewrite getAllEnvironments_in. split.
    - intros (r & l & Hl & H). exists r. apply hasEnvironment_true.
      exists l. split; [now apply in_get | exact H].
    - intros (r & H). apply hasEnvironment_true in H as (l & Hl & H).
      exists r, l. split; [now apply get_in | exact H]. }
  pose proof (getAllEnvironments_ascending environments) as Hasc.
  split; [exact Hin|]. split; [exact Hasc|].
  split; [now apply ascending_NoDup|].
  intros l Hl Hsame. apply ascending_unique; try assumption.
  intros x. now rewrite Hsame, Hin.
Qed.

(** X16.  The grid always has columns, and a column for every
    environment a repository has: [displayEnvironments] is never empty,
    it holds every environment [hasEnvironment] finds, and it is the
    four fixed environments exactly when no stored list names an
    environment. *)
Theorem displayEnvironments_covers environments :
  displayEnvironments environments <> []
  /\ (forall repoName envName,
        hasEnvironment environments repoName envName = Some true ->
        In envName (displayEnvironments environments))
  /\ ((forall repoName l, In (repoName, l) environments -> l = [])
      <-> getAllEnvironments environments = [])
  /\ (getAllEnvironments environments = [] ->
      displayEnvironments environments = COMMON_ENVIRONMENTS).
Proof.
  assert (Hcover : forall repoName envName,
            hasEnvironment environments repoName envName = Some true ->
            In envName (getAllEnvironments environments)).
  { intros r e H. apply hasEnvironment_true in H as (l & Hl & H).
    apply getAllEnvironments_in. exists r, l.
    split; [now apply get_in | exact H]. }
  unfold displayEnvironments.
  split; [|split; [|split]].
  - destruct (getAllEnvironments environments) as [|x l] eqn:E; cbn;
      discriminate.
  - intros r e H. apply Hcover in H.
    destruct (getAllEnvironments environments) as [|x l]; [destruct H|].
    exact H.
  - split.
    + intros Hempty.
      destruct (getAllEnvironments environments) as [|x l'] eqn:E;
        [reflexivity|].
      assert (Hx : In x (getAllEnvironments environments))
        by (rewrite E; now left).
      apply getAllEnvironments_in in Hx as (r & l & Hl & Hx).
      rewrite (Hempty r l Hl) in Hx. destruct Hx.
    + intros E r l Hl. destruct l as [|e l]; [reflexivity|].
      assert (Hx : In (name e) (getAllEnvironments environments)).
      { apply getAllEnvironments_in. exists r, (e :: l).
        split; [exact Hl | now left]. }
      rewrite E in Hx. destruct Hx.
  - intros E. now rewrite E.
Qed.

End GridFacts.

(* ================================================================== *)
(** * environment-manager: updating a secret                             *)
(* ================================================================== *)

Section ManagerEditFacts.
Import JS Eff ManagerEdit.
Variable pf : Platform.
Variable f : EnvironmentManager.Form.

Lemma updateRequest_decoded secretName newValue q :
  updateRequest pf f secretName newValue = Returns q ->
  decoded q = Some newValue
  /\ method q = PUT
  /\ resource q = SecretR (EnvironmentManager.repository f)
                          (EnvironmentManager.environment f) secretName.
Proof.
  unfold updateRequest. destruct (btoa newValue) as [e|] eqn:E;
    [|discriminate].
  intros [= <-]. unfold decoded. cbn. split; [|now split].
  now apply atob_btoa.
Qed.

(** X17.  [updateSecret] never throws and sends one write at most: the
    [PUT] of the secret in the manager's own repository and
    environment, whose body decodes to the new value.  A value that
    cannot be encoded sends nothing, and like a rejected request ends
    in the error toast.  A 2xx answer raises the success toast, leaves
    the edit fields empty and asks for the listing.  Any other answer
    is silent: no toast, no listing request, and the component is as
    it was. *)
Theorem updateSecret_outcomes secretName newValue (s : Sys State) :
  let run := updateSecret pf f secretName newValue s in
  fst run = Returns tt
  /\ match updateRequest pf f secretName newValue with
     | Throws _ =>
         requests (snd run) = requests s
         /\ comp (snd run) = toast updateFailedToast (comp s)
     | Returns q =>
         decoded q = Some newValue
         /\ method q = PUT
         /\ resource q = SecretR (EnvironmentManager.repository f)
                                 (EnvironmentManager.environment f)
                                 secretName
         /\ match net pf (requests s) q with
            | Rejects _ =>
                requests (snd run) = requests s ++ [q]
                /\ comp (snd run) = toast updateFailedToast (comp s)
            | Resolves r =>
                if ok r then
                  requests (snd run)
                  = requests s
                    ++ [q; {| method := GET;
                              resource :=
                                SecretsR (EnvironmentManager.repository f)
                                         (EnvironmentManager.environment f);
                              body := NoBody |}]
                  /\ toasts (comp (snd run))
                     = toasts (comp s) ++ [updatedToast secretName]
                  /\ editingSecret (comp (snd run)) = []
                  /\ editSecretValue (comp (snd run)) = []
                else
                  requests (snd run) = requests s ++ [q]
                  /\ comp (snd run) = comp s
            end
     end.
Proof.
  cbv zeta.
  pose proof (updateRequest_decoded secretName newValue) as Hq.
  unfold updateSecret, tryCatch, bind, liftCompletion, fetch, modify,
    fetchSecretsCalled, fetchDetached, bind, modify, ret.
  destruct (updateRequest pf f secretName newValue) as [q|e].
  - destruct (Hq q eq_refl) as (Hd & Hm & Hr).
    destruct (net pf (requests s) q) as [r|e].
    + destruct (ok r); cbn.
      * split; [reflexivity|]. split; [exact Hd|]. split; [exact Hm|].
        split; [exact Hr|]. split; [now rewrite <- app_assoc|].
        now repeat split.
      * split; [reflexivity|]. split; [exact Hd|]. split; [exact Hm|].
        split; [exact Hr|]. now split.
    + cbn. split; [reflexivity|]. split; [exact Hd|]. split; [exact Hm|].
      split; [exact Hr|]. now split.
  - cbn. now repeat split.
Qed.

End ManagerEditFacts.

(* ================================================================== *)
(** * The further properties on the scenarios                            *)
(* ================================================================== *)

Section MoreWitnesses.
Import JS Eff Scenario GridScenario.

Lemma getGitHubApiUrl_trailing_slash_witness :
  GitHubApi.getGitHubApiUrl (Some enterprise)
  = enterprise ++ lit "/api/v3"
  /\ GitHubApi.getGitHubApiUrl (Some (enterprise ++ [GitHubApi.slash]))
     = GitHubApi.getGitHubApiUrl (Some enterprise)
  /\ GitHubApi.getGitHubApiUrl
       (Some (enterprise ++ [GitHubApi.slash; GitHubApi.slash]))
     = enterprise ++ [GitHubApi.slash] ++ lit "/api/v3"
  /\ GitHubApi.getGitHubApiUrl (Some [])
     = GitHubApi.getGitHubApiUrl None.
Proof.
  apply (getGitHubApiUrl_trailing_slash enterprise).
  - vm_compute. discriminate.
  - vm_compute. discriminate.
Defined.

Lemma url_injective_witness :
  GitHubApi.url (GitHubApi.getGitHubApiUrl None) (lit "acme")
    (SecretsR api production)
  <> GitHubApi.url (GitHubApi.getGitHubApiUrl None) (lit "acme")
       (SecretR api production (lit "TOKEN")).
Proof.
  apply (url_injective (GitHubApi.getGitHubApiUrl None) (lit "acme")
           (SecretsR api production)
           (SecretR api production (lit "TOKEN"))).
  - repeat constructor; vm_compute; intuition discriminate.
  - repeat constructor; vm_compute; intuition discriminate.
  - discriminate.
Defined.

Lemma dialogRepositories_NoDup :
  NoDup (map BulkDialog.name dialogRepositories).
Proof. repeat constructor; cbn; intuition discriminate. Defined.

Lemma dialogSelections_reachable :
  BulkDialog.reachable dialogRepositories dialogSelections.
Proof.
  apply BulkDialog.reachable_act;
    [apply BulkDialog.reachable_act;
       [apply BulkDialog.reachable_initial | exact I]
    | reflexivity].
Defined.

Lemma reachable_selections_NoDup_witness :
  NoDup (BulkDialog.selectedRepos dialogSelections)
  /\ NoDup (BulkDialog.selectedEnvironments dialogSelections)
  /\ NoDup (list_prod (BulkDialog.selectedRepos dialogSelections)
              (BulkDialog.selectedEnvironments dialogSelections)).
Proof.
  apply (reachable_selections_NoDup dialogRepositories dialogSelections
           dialogRepositories_NoDup dialogSelections_reachable).
Defined.

Lemma bulk_summary_adds_up_witness :
  let c' :=
    comp (snd (BulkSpec.bulkCreate remoteStagingRefused bulkForm Secrets
                 bulkStart)) in
  BulkDialog.successfulShown (BulkOperations.results c')
  + BulkDialog.failedShown (BulkOperations.results c')
  = length (BulkOperations.selectedRepos bulkForm)
    * length (BulkOperations.selectedEnvironments bulkForm)
  /\ BulkDialog.tableShown (BulkOperations.results c') = true
  /\ BulkOperations.toasts c'
     = BulkOperations.toasts (comp bulkStart)
       ++ [BulkSpec.reportOf bulkForm Secrets
             (BulkDialog.successfulShown (BulkOperations.results c'))].
Proof.
  apply (bulk_summary_adds_up remoteStagingRefused bulkForm Secrets bulkStart
           (bulkForm_accepted Secrets)).
Defined.


Lemma inventoryRemote_stable : ScanSpec.stable inventoryRemote.
Proof. intros h q. reflexivity. Defined.

Lemma scan_finds_secrets_witness :
  GlobalSecretsList.get (lit "TOKEN")
    (GlobalSecretsList.secretsMap
       (comp (snd (GlobalSecretsList.fetchAllSecretsAndVariables
                     inventoryRemote inventoryProps inventoryStart))))
  = ScanSpec.secretEntry inventoryRemote
      (GlobalSecretsList.allLocations inventoryProps) (lit "TOKEN").
Proof.
  apply (scan_finds_secrets inventoryRemote inventoryProps (lit "TOKEN")
           inventoryStart inventoryRemote_stable inventoryRemote_distinct).
Defined.

Lemma scan_finds_variables_witness :
  GlobalSecretsList.get (lit "REGION")
    (GlobalSecretsList.variablesMap
       (comp (snd (GlobalSecretsList.fetchAllSecretsAndVariables
                     inventoryRemote inventoryProps inventoryStart))))
  = ScanSpec.variableEntry inventoryRemote
      (GlobalSecretsList.allLocations inventoryProps) (lit "REGION").
Proof.
  apply (scan_finds_variables inventoryRemote inventoryProps (lit "REGION")
           inventoryStart inventoryRemote_stable).
Defined.

Lemma manager_create_form_witness :
  let c' :=
    comp (snd (ManagerSpec.create remoteUp managerForm Variables
                 managerStart)) in
  EnvironmentManager.isCreating c' = false
  /\ ((exists n,
         EnvironmentManager.toasts c'
         = EnvironmentManager.toasts (comp managerStart)
           ++ [ManagerSpec.reportOf managerForm Variables n])
      /\ ManagerForm.clearedFields Variables (comp managerStart) c'
      \/ EnvironmentManager.toasts c'
         = EnvironmentManager.toasts (comp managerStart)
           ++ [ManagerSpec.failureOf Variables]
         /\ ManagerForm.keptFields (comp managerStart) c').
Proof.
  apply (manager_create_form remoteUp managerForm Variables managerStart).
  vm_compute. reflexivity.
Defined.

Lemma manager_single_target_witness :
  let run := ManagerSpec.create remoteDown managerForm Secrets managerStart in
  fst run = Returns tt
  /\ ManagerSpec.totalCount managerForm = 1
  /\ match ManagerSpec.writeOf remoteDown managerForm Secrets
             (EnvironmentManager.repository managerForm)
             (EnvironmentManager.environment managerForm) with
     | Throws _ =>
         requests (snd run) = requests managerStart
         /\ EnvironmentManager.toasts (comp (snd run))
            = EnvironmentManager.toasts (comp managerStart)
              ++ [ManagerSpec.failureOf Secrets]
     | Returns q =>
         match net remoteDown (requests managerStart) q with
         | Rejects _ =>
             requests (snd run) = requests managerStart ++ [q]
             /\ EnvironmentManager.toasts (comp (snd run))
                = EnvironmentManager.toasts (comp managerStart)
                  ++ [ManagerSpec.failureOf Secrets]
         | Resolves r =>
             requests (snd run)
             = requests managerStart
               ++ [q; ManagerSpec.refreshOf managerForm Secrets]
             /\ EnvironmentManager.toasts (comp (snd run))
                = EnvironmentManager.toasts (comp managerStart)
                  ++ [ManagerSpec.reportOf managerForm Secrets
                        (if ok r then 1 else 0)]
         end
     end.
Proof.
  apply (manager_single_target remoteDown managerForm Secrets managerStart).
  - reflexivity.
  - vm_compute. reflexivity.
Defined.

Lemma gridEnvironments_wellKeyed : RepositoryGrid.wellKeyed gridEnvironments.
Proof. repeat constructor; cbn; intuition discriminate. Defined.

Lemma getAllEnvironments_spec_witness :
  (forall envName,
     In envName (RepositoryGrid.getAllEnvironments gridEnvironments)
     <-> exists repoName,
           RepositoryGrid.hasEnvironment gridEnvironments repoName envName
           = Some true)
  /\ RepositoryGrid.ascending
       (RepositoryGrid.getAllEnvironments gridEnvironments)
  /\ NoDup (RepositoryGrid.getAllEnvironments gridEnvironments)
  /\ forall l,
       RepositoryGrid.ascending l ->
       (forall envName,
          In envName l
          <-> exists repoName,
                RepositoryGrid.hasEnvironment gridEnvironments repoName
                  envName
                = Some true) ->
       l = RepositoryGrid.getAllEnvironments gridEnvironments.
Proof.
  apply (getAllEnvironments_spec gridEnvironments gridEnvironments_wellKeyed).
Defined.

End MoreWitnesses.
